(** * SilkyNet: the counting and confidence core of [api/inference.py]

    A shallow embedding of [SilkyNetInference.count_contours],
    [_separate_overlapped], [_calculate_confidence] and [predict], and the
    properties of the counting pipeline proved on it; then the rest of the
    class ([dice_coef], [preprocess_image], [segment], the overlay) and, of
    [app.py], [allowed_file], [init_model] and the batch endpoint.

    Conventions.
    - Python [int] is [Z]; Python and NumPy floats are exact rationals [Q]
      (the areas returned by OpenCV for integer contours are multiples of
      one half, and the thresholds 0.2, 0.5, 0.3 are the rationals of the
      same name; rounding of IEEE doubles is not part of the model).
    - A Python [dict] with string keys is a [gmap string pyval].
    - Python exceptions are values: a computation is a pair of the events
      it emitted (library calls and [print]) and its outcome, see [M].
    - OpenCV, SciPy, scikit-image, PIL and the Keras model are not part of
      the repository; they are the fields of the class [Vision].  What
      [app.py] takes from the file system, PIL's decoder and werkzeug are
      the fields of the class [Web]. *)

From Stdlib Require Import ZArith QArith Qabs Qround Lqa Lia List Bool.
From Stdlib Require Import Ascii String.
From stdpp Require Import gmap strings list fin_maps sorting.

(** ** Exceptions, events and the computation monad *)

(** A Python exception object: its class name and its message.  Every
    exception raised by the modelled code and by the libraries derives from
    [Exception], which is what the handlers of the source catch. *)
Record exn : Type := Exception { exn_class : string; exn_msg : string }.

Inductive outcome (A : Type) : Type :=
| Ok (a : A)
| Raise (e : exn).
Arguments Ok {A} a.
Arguments Raise {A} e.

(** What a call leaves behind besides its value. *)
Inductive event : Type :=
| LibCall (name : string)
| Print (msg : string).

Definition M (A : Type) : Type := (list event * outcome A)%type.

Definition ret {A} (a : A) : M A := ([], Ok a).
Definition raise {A} (e : exn) : M A := ([], Raise e).
Definition emit (ev : event) : M unit := ([ev], Ok tt).

Definition bind {A B} (m : M A) (f : A -> M B) : M B :=
  match m with
  | (t, Ok a) => let '(t', r) := f a in (t ++ t', r)
  | (t, Raise e) => (t, Raise e)
  end.

(** [try: body except Exception as e: handler] *)
Definition try_except {A} (body : M A) (handler : exn -> M A) : M A :=
  match body with
  | (t, Raise e) => let '(t', r) := handler e in (t ++ t', r)
  | (t, Ok a) => (t, Ok a)
  end.

(** A call into a library: the call is recorded, its outcome is the
    library's. *)
Definition libcall {A} (name : string) (r : outcome A) : M A :=
  ([LibCall name], r).

#[export] Instance M_ret : MRet M := @ret.
#[export] Instance M_bind : MBind M := fun A B f m => bind m f.

Definition trace {A} (m : M A) : list event := fst m.
Definition result {A} (m : M A) : outcome A := snd m.

(** ** Images and contours *)

(** A 2D array, row by row. *)
Definition grid (A : Type) : Type := list (list A).

Definition gmap2 {A B} (f : A -> B) (g : grid A) : grid B := map (map f) g.

(** [a.shape] of a 2D array: (rows, columns of the first row). *)
Definition shape {A} (g : grid A) : nat * nat :=
  (length g, match g with [] => 0%nat | r :: _ => length r end).

(** A contour: the ordered boundary points (x, y). *)
Definition contour : Type := list (Z * Z).

(** An RGB pixel buffer. *)
Definition rgb : Type := grid (Z * Z * Z).

(** ** Python values and dictionaries *)

Inductive pyval : Type :=
| VInt (z : Z)
| VFloat (q : Q)
| VContours (cs : list contour)
| VMask (m : grid Z)
| VImage (im : rgb).

Definition KeyError (k : string) : exn := Exception "KeyError" k.
Definition TypeError (k : string) : exn := Exception "TypeError" k.
Definition IndexError (k : string) : exn := Exception "IndexError" k.
Definition ZeroDivisionError : exn :=
  Exception "ZeroDivisionError" "division by zero".

(** [d[k]] *)
Definition getitem (d : gmap string pyval) (k : string) : M pyval :=
  match d !! k with
  | Some v => ret v
  | None => raise (KeyError k)
  end.

(** The numeric value of an [int] or a [float] operand. *)
Definition num (v : pyval) : M Q :=
  match v with
  | VInt z => ret (inject_Z z)
  | VFloat q => ret q
  | _ => raise (TypeError "unsupported operand type(s)")
  end.

(** ** Comparisons and arithmetic on floats *)

Definition Qlt_bool (x y : Q) : bool := negb (Qle_bool y x).

(** [x / y] *)
Definition truediv (x y : Q) : M Q :=
  if Qeq_bool y 0 then raise ZeroDivisionError else ret (x / y)%Q.

(** The builtins [max(a, b)] and [min(a, b)]: the first argument unless the
    second is strictly greater (smaller). *)
Definition py_max (a b : Q) : Q := if Qlt_bool a b then b else a.
Definition py_min (a b : Q) : Q := if Qlt_bool b a then b else a.
Definition py_maxZ (a b : Z) : Z := if (a <? b)%Z then b else a.

(** ** [np.median] *)

Fixpoint insert_sorted (x : Q) (l : list Q) : list Q :=
  match l with
  | [] => [x]
  | y :: l' => if Qle_bool x y then x :: y :: l' else y :: insert_sorted x l'
  end.

(** [np.sort] on a float array. *)
Definition np_sort (l : list Q) : list Q := foldr insert_sorted [] l.

(** [np.median] of a 1D array: the middle element of the sorted array, or
    the mean of the two middle elements when the length is even.  On the
    empty array NumPy returns NaN; [count_contours] never passes it, and the
    model returns 0 there. *)
Definition np_median (l : list Q) : Q :=
  let s := np_sort l in
  let n := length l in
  if Nat.even n
  then ((nth (n / 2 - 1) s 0 + nth (n / 2) s 0) / 2)%Q
  else nth (n / 2) s 0%Q.

(** [np.unique] of an integer array: the sorted distinct values. *)
Definition np_unique (g : grid Z) : list Z :=
  merge_sort Z.le (remove_dups (concat g)).

(** ** The libraries *)

(** OpenCV, SciPy, scikit-image, PIL and the Keras model, as the source
    calls them.  The calls made inside the [try] block of
    [_separate_overlapped], the network and the contour drawing of the
    overlay may raise.  [contourArea] is called with its default
    [oriented=False] and returns a magnitude. *)
Class Vision : Type := {
  findContours : grid Z -> list contour;
  contourArea : contour -> Q;
  contourArea_nonneg : forall c, (0 <= contourArea c)%Q;
  drawContours : grid Z -> list contour -> outcome (grid Z);
  distance_transform_edt : grid bool -> outcome (grid Q);
  peak_local_max : grid Q -> nat -> grid bool -> outcome (list (nat * nat));
  ndi_label : grid bool -> outcome (grid Z * Z);
  watershed : grid Q -> grid Z -> grid bool -> outcome (grid Z);
  pil_resize : rgb -> nat * nat -> rgb;
  model_predict : list (grid (Q * Q * Q)) -> outcome (list (grid (list Q)));
  drawContoursRGB : rgb -> list contour -> outcome rgb
}.

(** [SilkyNetInference]: the configured input size (width, height); the
    model handle is [model_predict]. *)
Record SilkyNetInference : Type := { img_size : nat * nat }.

(** ** The classification loop of [count_contours] *)

(** The counters of the loop and the list it appends to. *)
Record tally : Type := Tally {
  artifacts : Z;
  partial : Z;
  overlapped : Z;
  overlapped_contours : list contour
}.

(** [enumerate(a)] *)
Definition enumerate {A} (l : list A) : list (nat * A) := imap pair l.

(** [cs[i]] *)
Definition index {A} (cs : list A) (i : nat) : M A :=
  match cs !! i with
  | Some c => ret c
  | None => raise (IndexError "list index out of range")
  end.

(** The body of [for i, area in enumerate(contour_areas)]. *)
Definition classify_step (contours : list contour) (median_area : Q)
    (st : tally) (ia : nat * Q) : M tally :=
  let '(i, area) := ia in
  if Qlt_bool area (0.2 * median_area) then
    mret (Tally (artifacts st + 1) (partial st) (overlapped st)
                (overlapped_contours st))
  else if Qle_bool (0.2 * median_area) area
          && Qlt_bool area (0.5 * median_area) then
    mret (Tally (artifacts st) (partial st + 1) (overlapped st)
                (overlapped_contours st))
  else if Qlt_bool (1.0 * median_area) area then
    c ← index contours i;
    mret (Tally (artifacts st) (partial st) (overlapped st + 1)
                (overlapped_contours st ++ [c]))
  else mret st.

Fixpoint for_each {A S} (body : S -> A -> M S) (items : list A) (st : S)
    : M S :=
  match items with
  | [] => mret st
  | x :: items' => st' ← body st x; for_each body items' st'
  end.

Definition classify (contours : list contour) (contour_areas : list Q)
    (median_area : Q) : M tally :=
  for_each (classify_step contours median_area) (enumerate contour_areas)
           (Tally 0 0 0 []).

(** ** The methods of [SilkyNetInference] *)

Section Inference.
Context `{Vision}.

(** [len(a)] as a Python int. *)
Definition len {A} (l : list A) : Z := Z.of_nat (length l).

(** [np.zeros(shape, dtype=bool)] *)
Definition np_zeros_bool (sh : nat * nat) : grid bool :=
  replicate (fst sh) (replicate (snd sh) false).

(** [a[tuple(coords.T)] = True] *)
Fixpoint set_true (a : grid bool) (coords : list (nat * nat))
    : M (grid bool) :=
  match coords with
  | [] => mret a
  | (r, c) :: coords' =>
      match a !! r with
      | Some row =>
          if decide (c < length row)%nat
          then set_true (<[r := <[c := true]> row]> a) coords'
          else raise (IndexError "index is out of bounds for axis 1")
      | None => raise (IndexError "index is out of bounds for axis 0")
      end
  end.

(** The [try] block of [_separate_overlapped]. *)
Definition try_block (mask : grid Z) (overlapped_contours : list contour)
    : M Z :=
  let overlap_img := gmap2 (fun _ => 0%Z) mask in
  overlap_img ← libcall "cv2.drawContours"
                  (drawContours overlap_img overlapped_contours);
  let fg := gmap2 (fun v => (0 <? v)%Z) overlap_img in
  distance ← libcall "ndi.distance_transform_edt"
               (distance_transform_edt fg);
  coords ← libcall "peak_local_max" (peak_local_max distance 5 fg);
  if (len coords =? 0)%Z then mret 0%Z
  else
    let mask_markers := np_zeros_bool (shape distance) in
    mask_markers ← set_true mask_markers coords;
    '(markers, _) ← libcall "ndi.label" (ndi_label mask_markers);
    labels ← libcall "watershed"
               (watershed (gmap2 Qopp distance) markers fg);
    let num_separated := (len (np_unique labels) - 1)%Z in
    mret (py_maxZ 0 (num_separated - len overlapped_contours)).

(** Its [except Exception as e] handler. *)
Definition warn (e : exn) : M Z :=
  emit (Print ("Warning: Watershed separation failed: " +:+ exn_msg e));;
  mret 0%Z.

(** [_separate_overlapped(self, mask, overlapped_contours)] *)
Definition _separate_overlapped (mask : grid Z)
    (overlapped_contours : list contour) : M Z :=
  try_except (try_block mask overlapped_contours) warn.

(** The dictionary returned when no contour is found. *)
Definition empty_result (contours : list contour) : gmap string pyval :=
  <["total_count" := VInt 0]>
  (<["individual_count" := VInt 0]>
  (<["overlapped_count" := VInt 0]>
  (<["partial_count" := VInt 0]>
  (<["artifacts_count" := VInt 0]>
  (<["contours" := VContours contours]> ∅))))).

(** The dictionary returned after classification. *)
Definition full_result (contours : list contour) (median_area : Q)
    (st : tally) (additional_count : Z) : gmap string pyval :=
  let individual := (len contours - artifacts st - overlapped st)%Z in
  let total_count := (individual + additional_count + partial st)%Z in
  <["total_count" := VInt total_count]>
  (<["individual_count" := VInt individual]>
  (<["overlapped_count" := VInt (overlapped st)]>
  (<["additional_separated" := VInt additional_count]>
  (<["partial_count" := VInt (partial st)]>
  (<["artifacts_count" := VInt (artifacts st)]>
  (<["contours" := VContours contours]>
  (<["median_area" := VFloat median_area]> ∅))))))).

(** [count_contours(self, mask, threshold=200)].  The mask is the uint8
    array [segment] returns: [mask * 255] wraps modulo 256, and
    [cv2.threshold] with [THRESH_BINARY] keeps the pixels strictly above the
    threshold. *)
Definition count_contours (self : SilkyNetInference) (mask : grid Z)
    (threshold : Z) : M (gmap string pyval) :=
  let mask_uint8 := gmap2 (fun v => (v * 255) `mod` 256)%Z mask in
  let thresh_img :=
    gmap2 (fun v => if (threshold <? v)%Z then 255 else 0)%Z mask_uint8 in
  let contours := findContours thresh_img in
  if (len contours =? 0)%Z then mret (empty_result contours)
  else
    let contour_areas := map contourArea contours in
    let median_area := np_median contour_areas in
    st ← classify contours contour_areas median_area;
    additional_count ←
      (match overlapped_contours st with
       | _ :: _ => _separate_overlapped thresh_img (overlapped_contours st)
       | [] => mret 0%Z
       end);
    mret (full_result contours median_area st additional_count).

Definition default_threshold : Z := 200.

(** [_calculate_confidence(self, count_results)] *)
Definition _calculate_confidence (count_results : gmap string pyval)
    : M Q :=
  total ← getitem count_results "total_count" ≫= num;
  artifacts ← getitem count_results "artifacts_count" ≫= num;
  if Qeq_bool total 0 then mret 0%Q
  else
    artifact_ratio ← truediv artifacts (total + artifacts);
    let confidence := (1.0 - artifact_ratio * 0.5)%Q in
    overlapped ← getitem count_results "overlapped_count" ≫= num;
    overlap_ratio ←
      (if Qlt_bool 0 total then truediv overlapped total else mret 0%Q);
    let confidence := (confidence * (1.0 - overlap_ratio * 0.3))%Q in
    mret (py_max 0.0 (py_min 1.0 confidence)).

(** [preprocess_image(self, image)]: resize to the configured size, scale
    to [0, 1], add the batch dimension. *)
Definition preprocess_image (self : SilkyNetInference) (image : rgb)
    : list (grid (Q * Q * Q)) :=
  let image_resized := pil_resize image (img_size self) in
  let scale (v : Z) : Q := (inject_Z v / 255.0)%Q in
  let image_arr :=
    gmap2 (fun '(r, g, b) => (scale r, scale g, scale b)) image_resized in
  [image_arr].

(** [segment(self, image)] *)
Definition segment (self : SilkyNetInference) (image : rgb) : M (grid Z) :=
  let input_arr := preprocess_image self image in
  mask_pred ← libcall "model.predict" (model_predict input_arr);
  first ← index mask_pred 0;
  probs ← mapM (mapM (fun px : list Q => index px 0)) first;
  mret (gmap2 (fun p : Q => if Qlt_bool 0.5 p then 1%Z else 0%Z) probs).

(** [overlay[mask > 0] = overlay[mask > 0] * 0.6 + [0, 255, 0] * 0.4], the
    result stored back into the uint8 array.  A boolean index must have the
    shape of the indexed array. *)
Definition tint (px : Z * Z * Z) : Z * Z * Z :=
  let '(r, g, b) := px in
  (Qfloor (inject_Z r * 0.6 + 0 * 0.4), Qfloor (inject_Z g * 0.6 + 255 * 0.4),
   Qfloor (inject_Z b * 0.6 + 0 * 0.4)).

Definition tint_where (overlay : rgb) (mask : grid Z) : M rgb :=
  if decide (shape overlay = shape mask)
  then mret (zip_with (zip_with (fun px v =>
                                   if (0 <? v)%Z then tint px else px))
                      overlay mask)
  else raise (IndexError "boolean index did not match indexed array").

(** [create_visualization(self, image, mask, contours)]; [mask_rgb] is
    computed by the source and never used. *)
Definition create_visualization (self : SilkyNetInference) (image : rgb)
    (mask : grid Z) (contours : list contour) : M rgb :=
  let image_resized := pil_resize image (img_size self) in
  let overlay := image_resized in
  overlay ← tint_where overlay mask;
  libcall "cv2.drawContours" (drawContoursRGB overlay contours).

Definition as_contours (v : pyval) : M (list contour) :=
  match v with
  | VContours cs => mret cs
  | _ => raise (TypeError "contours is not a sequence of contours")
  end.

(** [predict(self, image)] *)
Definition predict (self : SilkyNetInference) (image : rgb)
    : M (gmap string pyval) :=
  mask ← segment self image;
  count_results ← count_contours self mask default_threshold;
  contours ← getitem count_results "contours" ≫= as_contours;
  visualization ← create_visualization self image mask contours;
  confidence ← _calculate_confidence count_results;
  mret (count_results ∪
        (<["mask" := VMask mask]>
        (<["visualization" := VImage visualization]>
        (<["confidence" := VFloat confidence]> ∅)))).

End Inference.

(** ** Reading the classification off the loop *)

(** The branch of the [if]/[elif] chain a contour of area [a] takes when
    the median is [m]; [Untagged] is the fall-through. *)
Inductive Classification : Type := Artifact | Partial | Overlapped | Untagged.

Definition tag (m a : Q) : Classification :=
  if Qlt_bool a (0.2 * m) then Artifact
  else if Qle_bool (0.2 * m) a && Qlt_bool a (0.5 * m) then Partial
  else if Qlt_bool (1.0 * m) a then Overlapped
  else Untagged.

Definition Classification_eqb (x y : Classification) : bool :=
  match x, y with
  | Artifact, Artifact | Partial, Partial
  | Overlapped, Overlapped | Untagged, Untagged => true
  | _, _ => false
  end.

(** How many of the areas take the branch [k]. *)
Definition tagged (k : Classification) (m : Q) (areas : list Q) : Z :=
  len (List.filter (fun a => Classification_eqb (tag m a) k) areas).

(** The try block of [_separate_overlapped] fails with [e] at one of its
    library steps. *)
Section Steps.
Context `{Vision}.

Definition blank (mask : grid Z) : grid Z := gmap2 (fun _ => 0%Z) mask.
Definition foreground (img : grid Z) : grid bool :=
  gmap2 (fun v => (0 <? v)%Z) img.

Inductive step_fails (mask : grid Z) (cs : list contour) (e : exn) : Prop :=
| fails_rasterize :
    drawContours (blank mask) cs = Raise e -> step_fails mask cs e
| fails_distance img :
    drawContours (blank mask) cs = Ok img ->
    distance_transform_edt (foreground img) = Raise e ->
    step_fails mask cs e
| fails_peaks img dist :
    drawContours (blank mask) cs = Ok img ->
    distance_transform_edt (foreground img) = Ok dist ->
    peak_local_max dist 5 (foreground img) = Raise e ->
    step_fails mask cs e
| fails_markers img dist coords :
    drawContours (blank mask) cs = Ok img ->
    distance_transform_edt (foreground img) = Ok dist ->
    peak_local_max dist 5 (foreground img) = Ok coords ->
    coords <> [] ->
    result (set_true (np_zeros_bool (shape dist)) coords) = Raise e ->
    step_fails mask cs e
| fails_label img dist coords mm :
    drawContours (blank mask) cs = Ok img ->
    distance_transform_edt (foreground img) = Ok dist ->
    peak_local_max dist 5 (foreground img) = Ok coords ->
    coords <> [] ->
    result (set_true (np_zeros_bool (shape dist)) coords) = Ok mm ->
    ndi_label mm = Raise e ->
    step_fails mask cs e
| fails_watershed img dist coords mm markers n :
    drawContours (blank mask) cs = Ok img ->
    distance_transform_edt (foreground img) = Ok dist ->
    peak_local_max dist 5 (foreground img) = Ok coords ->
    coords <> [] ->
    result (set_true (np_zeros_bool (shape dist)) coords) = Ok mm ->
    ndi_label mm = Ok (markers, n) ->
    watershed (gmap2 Qopp dist) markers (foreground img) = Raise e ->
    step_fails mask cs e.

(** The try block runs to the end: peaks [coords] were found and the
    watershed returned [labels]. *)
Inductive watershed_labels (mask : grid Z) (cs : list contour)
    (coords : list (nat * nat)) (labels : grid Z) : Prop :=
| watershed_ran img dist mm markers n :
    drawContours (blank mask) cs = Ok img ->
    distance_transform_edt (foreground img) = Ok dist ->
    peak_local_max dist 5 (foreground img) = Ok coords ->
    coords <> [] ->
    result (set_true (np_zeros_bool (shape dist)) coords) = Ok mm ->
    ndi_label mm = Ok (markers, n) ->
    watershed (gmap2 Qopp dist) markers (foreground img) = Ok labels ->
    watershed_labels mask cs coords labels.

(** The peak finder ran and found nothing. *)
Inductive no_peaks (mask : grid Z) (cs : list contour) : Prop :=
| no_peaks_found img dist :
    drawContours (blank mask) cs = Ok img ->
    distance_transform_edt (foreground img) = Ok dist ->
    peak_local_max dist 5 (foreground img) = Ok [] ->
    no_peaks mask cs.

(** The contours that take the [Overlapped] branch. *)
Definition overlapped_of (m : Q) (cs : list contour) : list contour :=
  List.filter (fun c => Classification_eqb (tag m (contourArea c)) Overlapped)
              cs.

(** The separation step of [count_contours]: skipped when no contour is
    overlapped. *)
Definition additional_step (thresh_img : grid Z) (ovc : list contour)
    : M Z :=
  match ovc with
  | _ :: _ => _separate_overlapped thresh_img ovc
  | [] => mret 0%Z
  end.

End Steps.

(** The thresholded image [count_contours] extracts contours from. *)
Definition binarize (mask : grid Z) (threshold : Z) : grid Z :=
  gmap2 (fun v => if (threshold <? v)%Z then 255 else 0)%Z
        (gmap2 (fun v => (v * 255) `mod` 256)%Z mask).

(** The distinct labels of a labeling other than the background 0. *)
Definition non_background (labels : grid Z) : list Z :=
  List.filter (fun v => negb (v =? 0)%Z) (np_unique labels).

(** ** Shapes and ranges *)

(** A mask of zeros and ones. *)
Definition binary_mask (mask : grid Z) : Prop :=
  Forall (Forall (fun v => v = 0 \/ v = 1)%Z) mask.

(** The mask pixel [v] is the test "above 0.5" of the first channel of the
    network pixel [px]. *)
Definition above_half (px : list Q) (v : Z) : Prop :=
  exists p, px !! 0%nat = Some p /\
            v = if Qlt_bool 0.5 p then 1%Z else 0%Z.

(** A pixel of bytes, and a pixel scaled to the unit interval. *)
Definition byte_pixel (px : Z * Z * Z) : Prop :=
  let '(r, g, b) := px in
  (0 <= r <= 255)%Z /\ (0 <= g <= 255)%Z /\ (0 <= b <= 255)%Z.

Definition unit_pixel (px : Q * Q * Q) : Prop :=
  let '(r, g, b) := px in
  (0 <= r /\ r <= 1)%Q /\ (0 <= g /\ g <= 1)%Q /\ (0 <= b /\ b <= 1)%Q.

(** The cell [a[r, c]] of a boolean array, and an array of shape [sh]. *)
Definition cell (a : grid bool) (r c : nat) : option bool :=
  a !! r ≫= fun row => row !! c.

Definition rectangular (a : grid bool) (sh : nat * nat) : Prop :=
  length a = fst sh /\ Forall (fun row => length row = snd sh) a.

(** ** [dice_coef] *)

(** A Keras tensor of rank 4: batch, rows, columns, channels. *)
Definition tensor : Type := list (grid (list Q)).

(** [keras.backend.flatten] *)
Definition flatten (t : tensor) : list Q := concat (concat (concat t)).

(** [keras.backend.sum] of a flat tensor. *)
Definition tf_sum (l : list Q) : Q := foldr Qplus 0%Q l.

(** The product of two flat tensors: element by element when the lengths
    agree, one element against all when a length is 1, otherwise an
    error of the backend. *)
Definition tf_mul (a b : list Q) : M (list Q) :=
  if decide (length a = length b) then mret (zip_with Qmult a b)
  else match a, b with
       | [x], _ => mret (map (Qmult x) b)
       | _, [y] => mret (map (fun x => x * y)%Q a)
       | _, _ => raise (Exception "InvalidArgumentError" "Incompatible shapes")
       end.

(** [dice_coef(y_true, y_pred)].  The quotient is the exact one; with a
    denominator of 0 the float division of the backend gives an infinity or
    a NaN, which the model does not have. *)
Definition dice_coef (y_true y_pred : tensor) : M Q :=
  let smooth := 0.0001%Q in
  let y_true_f := flatten y_true in
  let y_pred_f := flatten y_pred in
  prod ← tf_mul y_true_f y_pred_f;
  let intersection := tf_sum prod in
  let score := ((2 * intersection + smooth)
                / (tf_sum y_true_f + tf_sum y_pred_f + smooth))%Q in
  mret score.

(** ** The service layer, [app.py] *)

(** [c in s] for a character. *)
Fixpoint str_contains (c : ascii) (s : string) : bool :=
  match s with
  | EmptyString => false
  | String c' s' => Ascii.eqb c' c || str_contains c s'
  end.

(** [s.rsplit(c, 1)]: the string cut at the last [c], or the string alone
    when it has no [c]. *)
Fixpoint rsplit1 (c : ascii) (s : string) : list string :=
  match s with
  | EmptyString => [EmptyString]
  | String c' s' =>
      match rsplit1 c s' with
      | [before; after] => [String c' before; after]
      | _ => if Ascii.eqb c' c then [EmptyString; s'] else [String c' s']
      end
  end.

(** [s.lower()] on the ASCII letters; the strings are byte strings, and the
    lower case of a character outside ASCII is no letter of an allowed
    extension. *)
Definition ascii_lower (c : ascii) : ascii :=
  let n := nat_of_ascii c in
  if (65 <=? n)%nat && (n <=? 90)%nat then ascii_of_nat (n + 32) else c.

Fixpoint lower (s : string) : string :=
  match s with
  | EmptyString => EmptyString
  | String c s' => String (ascii_lower c) (lower s')
  end.

(** [app.config['ALLOWED_EXTENSIONS']] *)
Definition ALLOWED_EXTENSIONS : gset string := {["png"; "jpg"; "jpeg"]}.

(** [allowed_file(filename)] *)
Definition allowed_file (filename : string) : M bool :=
  if str_contains "." filename then
    ext ← index (rsplit1 "." filename) 1;
    mret (bool_decide (lower ext ∈ ALLOWED_EXTENSIONS))
  else mret false.

(** The extension of a file name, as the specification of [allowed_file]
    reads it: what follows the last dot, when there is a dot. *)
Fixpoint after_last_dot (s : string) : option string :=
  match s with
  | EmptyString => None
  | String c s' =>
      match after_last_dot s' with
      | Some ext => Some ext
      | None => if Ascii.eqb c "." then Some s' else None
      end
  end.

Definition has_allowed_extension (name : string) : bool :=
  match after_last_dot name with
  | Some ext => bool_decide (lower ext ∈ ALLOWED_EXTENSIONS)
  | None => false
  end.

(** JSON values, as [jsonify] receives them. *)
#[warnings="-register-all"]
Inductive json : Type :=
| JNull
| JBool (b : bool)
| JInt (z : Z)
| JFloat (q : Q)
| JStr (s : string)
| JList (l : list json)
| JObj (fields : list (string * json)).

(** The field [k] of a JSON object. *)
Definition field (j : json) (k : string) : option json :=
  match j with
  | JObj fields => snd <$> List.find (fun kv => String.eqb (fst kv) k) fields
  | _ => None
  end.

(** A view returns a body and a status. *)
Record response : Type := Response { body : json; status : nat }.

(** An uploaded file part: its file name and its content. *)
Record upload : Type := Upload { filename : string; content : string }.

(** A PIL image: its mode and its pixels. *)
Record pil : Type := Pil { mode : string; pixels : rgb }.

(** What the service layer takes from its environment: the model path and
    whether a file is there, the loading of the model, PIL's decoder and
    mode conversion, and werkzeug's [secure_filename]. *)
Class Web : Type := {
  MODEL_PATH : string;
  path_exists : string -> bool;
  load_model : string -> outcome unit;
  image_open : string -> outcome pil;
  image_convert : pil -> string -> outcome pil;
  secure_filename : string -> string
}.

(** The value of a count for JSON. *)
Definition to_json (v : pyval) : json :=
  match v with
  | VInt z => JInt z
  | VFloat q => JFloat q
  | _ => JNull
  end.

(** [d.get(k, default)] *)
Definition dict_get (d : gmap string pyval) (k : string) (default : pyval)
    : pyval :=
  match d !! k with Some v => v | None => default end.

(** The file parts [batch_segment] processes: those with a file name,
    of an allowed extension. *)
Definition accepted (file : upload) : bool :=
  negb (String.eqb (filename file) "") && has_allowed_extension (filename file).

(** The body of a successful batch. *)
Definition success_body (results : list json) : json :=
  JObj [("success", JBool true);
        ("total_processed", JInt (len results));
        ("results", JList results)].

Section Service.
Context `{Vision} `{Web}.

(** [SilkyNetInference.__init__(self, model_path, img_size=(512, 512))],
    with [_load_model]. *)
Definition _load_model (model_path : string) : M unit :=
  libcall "load_model" (load_model model_path).

Definition new_inference (model_path : string) (size : nat * nat)
    : M SilkyNetInference :=
  _load_model model_path;;
  mret {| img_size := size |}.

(** [init_model()]: the argument is the global [silkynet] before the call;
    the value returned is also the global after it. *)
Definition init_model (silkynet : option SilkyNetInference)
    : M (option SilkyNetInference) :=
  match silkynet with
  | None =>
      if path_exists MODEL_PATH then
        inference ← new_inference MODEL_PATH (512, 512)%nat;
        emit (Print ("✅ Model loaded from " +:+ MODEL_PATH));;
        mret (Some inference)
      else
        emit (Print ("⚠️  Model not found at " +:+ MODEL_PATH));;
        mret None
  | Some inference => mret (Some inference)
  end.

(** [jsonify({'success': False, 'error': msg}), code] *)
Definition failure (msg : string) (code : nat) : response :=
  Response (JObj [("success", JBool false); ("error", JStr msg)]) code.

(** [request.files.getlist(key)] on the parts of the form, in order. *)
Definition getlist (files : list (string * upload)) (key : string)
    : list upload :=
  omap (fun '(k, f) => if decide (k = key) then Some f else None) files.

(** The entry appended to [results] for one file. *)
Definition batch_entry (file : upload) (result : gmap string pyval)
    (count : pyval) : json :=
  JObj [("filename", JStr (secure_filename (filename file)));
        ("count", to_json count);
        ("metadata", JObj [
           ("overlapped",
            to_json (dict_get result "overlapped_count" (VInt 0)));
           ("partial",
            to_json (dict_get result "partial_count" (VInt 0)));
           ("artifacts",
            to_json (dict_get result "artifacts_count" (VInt 0)))])].

(** The body of the loop of [batch_segment]. *)
Definition batch_step (model : SilkyNetInference) (results : list json)
    (file : upload) : M (list json) :=
  allowed ← (if decide (filename file = "") then mret false
             else allowed_file (filename file));
  if allowed : bool then
    let image_bytes := content file in
    image ← libcall "Image.open" (image_open image_bytes);
    image ← (if decide (mode image = "RGB") then mret image
             else libcall "Image.convert" (image_convert image "RGB"));
    result ← predict model (pixels image);
    count ← getitem result "total_count";
    mret (results ++ [batch_entry file result count])
  else mret results.

(** The [try] block of [batch_segment]. *)
Definition batch_body (silkynet : option SilkyNetInference)
    (files : list (string * upload)) : M response :=
  model ← init_model silkynet;
  match model with
  | None => mret (failure "Model not loaded" 500)
  | Some model =>
      match getlist files "files" with
      | [] => mret (failure "No files provided" 400)
      | uploads =>
          if (10 <? len uploads)%Z then
            mret (failure "Maximum 10 files per batch" 400)
          else
            results ← for_each (batch_step model) uploads [];
            mret (Response (success_body results) 200)
      end
  end.

(** [batch_segment()] *)
Definition batch_segment (silkynet : option SilkyNetInference)
    (files : list (string * upload)) : M response :=
  try_except (batch_body silkynet files)
             (fun e => mret (failure (exn_msg e) 500)).

End Service.

(** ** A scripted stand-in for the libraries

    Used to run the methods on concrete inputs: contour extraction answers
    with the contours of the scene on any image that has a foreground pixel,
    the area is the polygon area OpenCV computes, and the peak finder and
    the watershed answer as scripted. *)
Module Scene.

Fixpoint shoelace (prev : Z * Z) (c : contour) : Z :=
  match c with
  | [] => 0
  | p :: c' => (fst prev * snd p - snd prev * fst p) + shoelace p c'
  end.

(** [cv2.contourArea(c)]: half the magnitude of the boundary sum. *)
Definition polygon_area (c : contour) : Q :=
  Qabs (inject_Z (shoelace (List.last c (0, 0)%Z) c) * 0.5).

(** The axis-parallel square of side [s] with a corner at the origin. *)
Definition square (s : Z) : contour := [(0, 0); (0, s); (s, s); (s, 0)]%Z.

Record script : Type := {
  contours_found : list contour;
  peaks_found : outcome (list (nat * nat));
  labels_found : outcome (grid Z)
}.

Definition has_foreground (img : grid Z) : bool :=
  existsb (existsb (Z.ltb 0)) img.

Definition vision (sc : script) : Vision := {|
  findContours img := if has_foreground img then contours_found sc else [];
  contourArea := polygon_area;
  contourArea_nonneg c := Qabs_nonneg _;
  drawContours img cs := Ok (gmap2 (fun _ => 255%Z) img);
  distance_transform_edt fg :=
    Ok (gmap2 (fun b : bool => if b then 1%Q else 0%Q) fg);
  peak_local_max dist k fg := peaks_found sc;
  ndi_label mm := Ok (gmap2 (fun b : bool => if b then 1%Z else 0%Z) mm, 1%Z);
  watershed dist markers fg := labels_found sc;
  pil_resize im sz := im;
  model_predict batch :=
    Ok (map (gmap2 (fun '(r, g, b) => [r])) batch);
  drawContoursRGB im cs := Ok im
|}.

Definition engine : SilkyNetInference := {| img_size := (512, 512)%nat |}.

(** A strip with one background pixel and four foreground pixels. *)
Definition small_mask : grid Z := [[0; 1; 1; 1; 1]]%Z.
Definition background_mask : grid Z := [[0; 0]; [0; 0]]%Z.

(** Four specks, one larva, four clumps the watershed does not split:
    one region for each. *)
Definition crowded : script := {|
  contours_found := map square [1; 1; 1; 1; 3; 4; 4; 4; 4]%Z;
  peaks_found := Ok [(0, 1); (0, 2); (0, 3); (0, 4)]%nat;
  labels_found := Ok [[0; 1; 2; 3; 4]]%Z
|}.

(** Three larvae and one clump that the watershed splits in three. *)
Definition clump : script := {|
  contours_found := map square [2; 2; 2; 5]%Z;
  peaks_found := Ok [(0, 0); (0, 1)]%nat;
  labels_found := Ok [[0; 1; 2; 3]]%Z
|}.

(** The same scene with a watershed that fails. *)
Definition broken : script := {|
  contours_found := map square [2; 2; 2; 5]%Z;
  peaks_found := Ok [(0, 1)%nat];
  labels_found := Raise (Exception "ValueError" "markers out of range")
|}.

(** Larvae of one size. *)
Definition uniform : script := {|
  contours_found := map square [2; 2; 2]%Z;
  peaks_found := Ok [];
  labels_found := Ok []
|}.

(** Degenerate contours: single points, of area 0. *)
Definition points : script := {|
  contours_found := [[(1, 1)]; [(3, 4)]; [(7, 2)]]%Z;
  peaks_found := Ok [];
  labels_found := Ok []
|}.

(** A count of 6 with one artifact and one overlapped contour. *)
Definition six_larvae : gmap string pyval :=
  <["total_count" := VInt 6]>
  (<["artifacts_count" := VInt 1]>
  (<["overlapped_count" := VInt 1]> ∅)).

End Scene.

(** ** Further stand-ins: a network of fixed output, a stray peak, and the
    environment of the service *)
Module Fixtures.
Import Scene.

(** The libraries of [uniform] with a network that answers one pixel
    whatever the image. *)
Definition one_pixel_net : Vision :=
  let V := vision uniform in {|
    findContours := @findContours V;
    contourArea := @contourArea V;
    contourArea_nonneg := @contourArea_nonneg V;
    drawContours := @drawContours V;
    distance_transform_edt := @distance_transform_edt V;
    peak_local_max := @peak_local_max V;
    ndi_label := @ndi_label V;
    watershed := @watershed V;
    pil_resize := @pil_resize V;
    model_predict batch := Ok [[[[1%Q]]]];
    drawContoursRGB := @drawContoursRGB V
  |}.

(** A peak finder that answers a peak outside the array. *)
Definition stray_peak : script := {|
  contours_found := map square [2; 2; 2; 5]%Z;
  peaks_found := Ok [(3, 0)%nat];
  labels_found := Ok []
|}.

(** Two red pixels. *)
Definition red_strip : rgb := [[(255, 0, 0); (255, 0, 0)]]%Z.

(** A count of 3 without artifact or overlap. *)
Definition clean_count : gmap string pyval :=
  <["total_count" := VInt 3]>
  (<["artifacts_count" := VInt 0]>
  (<["overlapped_count" := VInt 0]> ∅)).

(** A service whose model file is there and loads, whose decoder fails on
    the content [bad] and answers the red strip otherwise. *)
Definition web : Web := {|
  MODEL_PATH := "Unet.hdf5";
  path_exists p := true;
  load_model p := Ok tt;
  image_open bytes :=
    if String.eqb bytes "bad"
    then Raise (Exception "UnidentifiedImageError"
                          "cannot identify image file")
    else Ok (Pil "RGB" red_strip);
  image_convert image m := Ok (Pil m (pixels image));
  secure_filename name := name
|}.

(** The same service without its model file. *)
Definition bare : Web := {|
  MODEL_PATH := "Unet.hdf5";
  path_exists p := false;
  load_model p := Ok tt;
  image_open := @image_open web;
  image_convert := @image_convert web;
  secure_filename name := name
|}.

(** A count that cancels against its artifacts. *)
Definition cancelling_count : gmap string pyval :=
  <["total_count" := VInt 2]> (<["artifacts_count" := VInt (-2)]> ∅).

Definition part (name data : string) : string * upload :=
  ("files", Upload name data).

(** Eleven parts. *)
Definition eleven : list (string * upload) :=
  replicate 11 (part "a.png" "x").

(** A picture, a text file, a part without a name, and a part under
    another key. *)
Definition mixed : list (string * upload) :=
  [part "a.PNG" "x"; part "notes.txt" "x"; part "" "x";
   ("other", Upload "b.png" "x")].

(** A picture, then one that cannot be decoded. *)
Definition spoiled : list (string * upload) :=
  [part "a.png" "x"; part "b.jpg" "bad"; part "c.jpeg" "x"].

End Fixtures.

(** ** The confidence score as the specification words it *)

Definition clamp01 (x : Q) : Q :=
  if Qlt_bool x 0 then 0%Q else if Qlt_bool 1 x then 1%Q else x.

Definition spec_confidence (total artifacts overlapped : Z) : Q :=
  if (total =? 0)%Z then 0%Q
  else
    let artifact_ratio :=
      (inject_Z artifacts / (inject_Z total + inject_Z artifacts))%Q in
    let overlap_ratio := (inject_Z overlapped / inject_Z total)%Q in
    clamp01 ((1 - 0.5 * artifact_ratio) * (1 - 0.3 * overlap_ratio))%Q.

(** The mask has the configured dimensions: [img_size] is (width, height),
    the shape of an array is (rows, columns). *)
Definition matches_size (self : SilkyNetInference) (mask : grid Z) : Prop :=
  shape mask = (snd (img_size self), fst (img_size self)).

(** * Properties *)

(** ** The monad *)

Lemma result_bind {A B} (m : M A) (f : A -> M B) :
  result (m ≫= f) =
  match result m with Ok a => result (f a) | Raise e => Raise e end.
Proof.
  destruct m as [t [a|e]]; simpl; [|done].
  unfold mbind, M_bind, bind. by destruct (f a).
Qed.

Lemma trace_bind {A B} (m : M A) (f : A -> M B) :
  trace (m ≫= f) =
  match result m with
  | Ok a => trace m ++ trace (f a)
  | Raise e => trace m
  end.
Proof.
  destruct m as [t [a|e]]; simpl; [|done].
  unfold mbind, M_bind, bind. by destruct (f a).
Qed.

Lemma bind_pure {A B} (a : A) (f : A -> M B) : (([], Ok a) : M A) ≫= f = f a.
Proof. unfold mbind, M_bind, bind. by destruct (f a). Qed.

Lemma M_eta {A} (m : M A) : m = (trace m, result m).
Proof. by destruct m. Qed.

Lemma result_try_except {A} (body : M A) (handler : exn -> M A) :
  result (try_except body handler) =
  match result body with Ok a => Ok a | Raise e => result (handler e) end.
Proof.
  destruct body as [t [a|e]]; simpl; [done|]. by destruct (handler e).
Qed.

Lemma trace_try_except {A} (body : M A) (handler : exn -> M A) :
  trace (try_except body handler) =
  match result body with
  | Ok a => trace body
  | Raise e => trace body ++ trace (handler e)
  end.
Proof.
  destruct body as [t [a|e]]; simpl; [done|]. by destruct (handler e).
Qed.

(** ** Comparisons *)

Lemma Qlt_bool_iff (x y : Q) : Qlt_bool x y = true <-> (x < y)%Q.
Proof.
  unfold Qlt_bool. rewrite negb_true_iff, <- not_true_iff_false, Qle_bool_iff.
  split; [apply Qnot_le_lt | apply Qlt_not_le].
Qed.

Lemma Qlt_bool_false (x y : Q) : Qlt_bool x y = false <-> (y <= x)%Q.
Proof.
  unfold Qlt_bool. by rewrite negb_false_iff, Qle_bool_iff.
Qed.

Lemma Qle_bool_false (x y : Q) : Qle_bool x y = false <-> (y < x)%Q.
Proof.
  rewrite <- not_true_iff_false, Qle_bool_iff.
  split; [apply Qnot_le_lt | apply Qlt_not_le].
Qed.

#[global] Instance Qlt_bool_proper : Proper (Qeq ==> Qeq ==> eq) Qlt_bool.
Proof. intros x x' Hx y y' Hy. unfold Qlt_bool. by rewrite Hx, Hy. Qed.

(** Turn the boolean tests of a goal or hypothesis into inequalities. *)
Ltac qbool :=
  repeat match goal with
  | H : Qlt_bool _ _ = true |- _ => apply Qlt_bool_iff in H
  | H : Qlt_bool _ _ = false |- _ => apply Qlt_bool_false in H
  | H : Qle_bool _ _ = true |- _ => apply Qle_bool_iff in H
  | H : Qle_bool _ _ = false |- _ => apply Qle_bool_false in H
  | H : Qeq_bool _ _ = true |- _ => apply Qeq_bool_iff in H
  | H : Qeq_bool _ _ = false |- _ => apply Qeq_bool_neq in H
  | H : _ && _ = true |- _ => apply andb_true_iff in H; destruct H
  | H : _ && _ = false |- _ => apply andb_false_iff in H
  end.

(** ** The tag of a contour *)

Lemma tag_Artifact (m a : Q) : tag m a = Artifact <-> (a < 0.2 * m)%Q.
Proof.
  unfold tag. destruct (Qlt_bool a (0.2 * m)) eqn:E1.
  - by rewrite <- Qlt_bool_iff.
  - split; [|intros ?%Qlt_bool_iff; congruence].
    by repeat case_match.
Qed.

Lemma tag_Partial (m a : Q) :
  tag m a = Partial <-> (0.2 * m <= a /\ a < 0.5 * m)%Q.
Proof.
  unfold tag. destruct (Qlt_bool a (0.2 * m)) eqn:E1.
  { qbool. split; [done|]. intros [? ?]. lra. }
  destruct (Qle_bool (0.2 * m) a && Qlt_bool a (0.5 * m)) eqn:E2.
  { by qbool. }
  split; [by case_match|]. intros [?%Qle_bool_iff ?%Qlt_bool_iff].
  rewrite andb_false_iff in E2. destruct E2; congruence.
Qed.

Lemma tag_Overlapped (m a : Q) :
  (0 <= a)%Q -> tag m a = Overlapped <-> (m < a)%Q.
Proof.
  intros Ha. unfold tag. destruct (Qlt_bool a (0.2 * m)) eqn:E1.
  { qbool. split; [done|]. lra. }
  destruct (Qle_bool (0.2 * m) a && Qlt_bool a (0.5 * m)) eqn:E2.
  { qbool. split; [done|]. lra. }
  destruct (Qlt_bool (1.0 * m) a) eqn:E3; qbool.
  - split; [lra|done].
  - split; [done|lra].
Qed.

Lemma tag_Untagged (m a : Q) :
  (0 <= a)%Q -> (0 <= m)%Q ->
  tag m a = Untagged <-> (0.5 * m <= a /\ a <= m)%Q.
Proof.
  intros Ha Hm. unfold tag. destruct (Qlt_bool a (0.2 * m)) eqn:E1.
  { qbool. split; [done|]. lra. }
  destruct (Qle_bool (0.2 * m) a && Qlt_bool a (0.5 * m)) eqn:E2.
  { qbool. split; [done|]. lra. }
  destruct (Qlt_bool (1.0 * m) a) eqn:E3; qbool.
  - split; [done|lra].
  - split; [|done]. intros _. destruct E2; qbool; lra.
Qed.

(** ** Sorting and the median *)

Lemma insert_sorted_perm (x : Q) (l : list Q) : insert_sorted x l ≡ₚ x :: l.
Proof.
  induction l as [|y l IH]; simpl; [done|].
  destruct (Qle_bool x y); [done|]. rewrite IH. apply Permutation_swap.
Qed.

Lemma np_sort_perm (l : list Q) : np_sort l ≡ₚ l.
Proof.
  induction l as [|x l IH]; simpl; [done|].
  by rewrite insert_sorted_perm, IH.
Qed.

Lemma np_sort_length (l : list Q) : length (np_sort l) = length l.
Proof. by rewrite np_sort_perm. Qed.

Lemma insert_sorted_sorted (x : Q) (l : list Q) :
  Sorted Qle l -> Sorted Qle (insert_sorted x l).
Proof.
  induction 1 as [|y l Hs IH Hhd]; simpl; [by repeat constructor|].
  destruct (Qle_bool x y) eqn:E; qbool.
  - by repeat constructor.
  - constructor; [done|]. destruct Hhd as [|z l Hz]; simpl.
    + constructor. by apply Qlt_le_weak.
    + destruct (Qle_bool x z); constructor; [by apply Qlt_le_weak|done].
Qed.

Lemma np_sort_sorted (l : list Q) : Sorted Qle (np_sort l).
Proof.
  induction l; simpl; [constructor|by apply insert_sorted_sorted].
Qed.

Lemma np_sort_Forall (P : Q -> Prop) (l : list Q) :
  Forall P l -> Forall P (np_sort l).
Proof. intros Hl. by rewrite np_sort_perm. Qed.

Lemma nth_Forall (P : Q -> Prop) (l : list Q) (i : nat) (d : Q) :
  Forall P l -> (i < length l)%nat -> P (nth i l d).
Proof. intros Hl Hi. by apply Forall_nth. Qed.

Lemma half_lt (n : nat) : (0 < n)%nat -> (n / 2 < n)%nat.
Proof. intros. apply Nat.div_lt; lia. Qed.

Lemma half_pred_lt (n : nat) : (0 < n)%nat -> (n / 2 - 1 < n)%nat.
Proof. intros. pose proof (half_lt n). lia. Qed.

(** The median lies between any bounds of the data. *)
Lemma np_median_bounds (lo hi : Q) (l : list Q) :
  l <> [] -> Forall (fun a => lo <= a /\ a <= hi)%Q l ->
  (lo <= np_median l /\ np_median l <= hi)%Q.
Proof.
  intros Hne Hl. unfold np_median.
  assert (0 < length l)%nat as Hn by (destruct l; [done|simpl; lia]).
  apply np_sort_Forall in Hl.
  pose proof (nth_Forall _ _ (length l / 2) 0%Q Hl) as H2.
  pose proof (nth_Forall _ _ (length l / 2 - 1) 0%Q Hl) as H1.
  rewrite np_sort_length in H1, H2.
  specialize (H1 (half_pred_lt _ Hn)). specialize (H2 (half_lt _ Hn)).
  cbv beta in H1, H2. destruct (Nat.even (length l)); [|done].
  destruct H1, H2. split.
  - apply Qle_shift_div_l; lra.
  - apply Qle_shift_div_r; lra.
Qed.

Lemma np_median_nonneg (l : list Q) :
  Forall (fun a => 0 <= a)%Q l -> (0 <= np_median l)%Q.
Proof.
  intros Hl. unfold np_median. apply np_sort_Forall in Hl.
  assert (forall i, 0 <= nth i (np_sort l) 0)%Q as Hnth.
  { intros i. destruct (decide (i < length (np_sort l))%nat).
    - by apply (nth_Forall (fun a => 0 <= a)%Q).
    - rewrite nth_overflow by lia. lra. }
  destruct (Nat.even (length l)); [|done].
  pose proof (Hnth (length l / 2 - 1)%nat). pose proof (Hnth (length l / 2)%nat).
  apply Qle_shift_div_l; lra.
Qed.









(** ** The classification loop *)

Lemma tagged_nil (k : Classification) (m : Q) : tagged k m [] = 0%Z.
Proof. done. Qed.

Lemma tagged_cons (k : Classification) (m a : Q) (areas : list Q) :
  tagged k m (a :: areas) =
  ((if Classification_eqb (tag m a) k then 1 else 0) + tagged k m areas)%Z.
Proof.
  unfold tagged, len. simpl.
  destruct (Classification_eqb (tag m a) k); simpl; lia.
Qed.

Lemma tagged_nonneg (k : Classification) (m : Q) (areas : list Q) :
  (0 <= tagged k m areas)%Z.
Proof. unfold tagged, len. lia. Qed.

(** Every area takes exactly one branch. *)
Lemma tagged_total (m : Q) (areas : list Q) :
  (tagged Artifact m areas + tagged Partial m areas
   + tagged Overlapped m areas + tagged Untagged m areas = len areas)%Z.
Proof.
  induction areas as [|a areas IH]; [done|].
  rewrite !tagged_cons. unfold len in *. simpl length.
  destruct (tag m a); simpl; lia.
Qed.

Lemma classify_step_tag (cs : list contour) (m : Q) (st : tally)
    (i : nat) (a : Q) :
  classify_step cs m st (i, a) =
  match tag m a with
  | Artifact =>
      mret (Tally (artifacts st + 1) (partial st) (overlapped st)
                  (overlapped_contours st))
  | Partial =>
      mret (Tally (artifacts st) (partial st + 1) (overlapped st)
                  (overlapped_contours st))
  | Overlapped =>
      c ← index cs i;
      mret (Tally (artifacts st) (partial st) (overlapped st + 1)
                  (overlapped_contours st ++ [c]))
  | Untagged => mret st
  end.
Proof. unfold classify_step, tag. by repeat case_match. Qed.

Section Loop.
Context `{Vision}.

Lemma for_each_classify (cs : list contour) (m : Q) :
  forall (rest seen : list contour) (st : tally),
  cs = seen ++ rest ->
  for_each (classify_step cs m)
           (imap (fun i a => ((length seen + i)%nat, a))
                 (map contourArea rest)) st =
  ([], Ok (Tally
    (artifacts st + tagged Artifact m (map contourArea rest))
    (partial st + tagged Partial m (map contourArea rest))
    (overlapped st + tagged Overlapped m (map contourArea rest))
    (overlapped_contours st ++ overlapped_of m rest))).
Proof.
  induction rest as [|c rest IH]; intros seen st Hcs.
  { simpl. rewrite !tagged_nil, !Z.add_0_r, app_nil_r. by destruct st. }
  cbn [map imap for_each].
  rewrite classify_step_tag, !tagged_cons.
  assert (imap ((fun i a => ((length seen + i)%nat, a)) ∘ S)
            (map contourArea rest) =
          imap (fun i a => ((length (seen ++ [c]) + i)%nat, a))
            (map contourArea rest)) as ->.
  { apply imap_ext. intros i a _. simpl. rewrite length_app. simpl.
    f_equal. lia. }
  assert (cs !! (length seen + 0)%nat = Some c) as Hc.
  { subst cs. rewrite Nat.add_0_r. apply list_lookup_middle. done. }
  assert (cs = (seen ++ [c]) ++ rest) as Hcs'.
  { by rewrite <- app_assoc. }
  unfold overlapped_of. simpl List.filter.
  destruct (tag m (contourArea c)) eqn:Et; simpl Classification_eqb; cbv iota.
  - unfold mret, M_ret, ret. rewrite bind_pure, (IH _ _ Hcs'). simpl.
    do 3 f_equal; lia.
  - unfold mret, M_ret, ret. rewrite bind_pure, (IH _ _ Hcs'). simpl.
    do 3 f_equal; lia.
  - unfold index. rewrite Hc. unfold mret, M_ret, ret.
    rewrite !bind_pure, (IH _ _ Hcs'). simpl.
    rewrite <- app_assoc. simpl. do 3 f_equal; lia.
  - unfold mret, M_ret, ret. rewrite bind_pure, (IH _ _ Hcs'). simpl.
    do 3 f_equal; lia.
Qed.

(** The loop never fails: it leaves the number of contours on each branch
    and the contours of the [Overlapped] branch, in order. *)
Lemma classify_spec (cs : list contour) (m : Q) :
  classify cs (map contourArea cs) m =
  ([], Ok (Tally (tagged Artifact m (map contourArea cs))
                 (tagged Partial m (map contourArea cs))
                 (tagged Overlapped m (map contourArea cs))
                 (overlapped_of m cs))).
Proof.
  unfold classify, enumerate.
  pose proof (for_each_classify cs m cs [] (Tally 0 0 0 []) eq_refl) as Hloop.
  simpl in Hloop. exact Hloop.
Qed.

Lemma overlapped_of_length (m : Q) (cs : list contour) :
  len (overlapped_of m cs) = tagged Overlapped m (map contourArea cs).
Proof.
  unfold overlapped_of, tagged, len. f_equal.
  induction cs as [|c cs IH]; simpl; [done|].
  destruct (Classification_eqb _ _); simpl; lia.
Qed.

End Loop.

(** ** The overlap separator *)

Lemma py_maxZ_max (a b : Z) : py_maxZ a b = Z.max a b.
Proof. unfold py_maxZ. destruct (Z.ltb_spec a b); lia. Qed.

Lemma result_libcall {A B} (name : string) (r : outcome A) (f : A -> M B) :
  result (libcall name r ≫= f) =
  match r with Ok a => result (f a) | Raise e => Raise e end.
Proof. by rewrite result_bind. Qed.

Lemma len_zero {A} (l : list A) : (len l =? 0)%Z = true <-> l = [].
Proof.
  unfold len. rewrite Z.eqb_eq. destruct l; simpl; [done|].
  split; [lia|done].
Qed.

Lemma len_nonzero {A} (l : list A) : (len l =? 0)%Z = false <-> l <> [].
Proof. rewrite <- not_true_iff_false, len_zero. done. Qed.

(** The distinct labels: one more than the non-background ones when the
    background occurs. *)
Lemma filter_nonzero_NoDup (l : list Z) :
  NoDup l -> 0%Z ∈ l ->
  (length (List.filter (fun v => negb (v =? 0)%Z) l) + 1 = length l)%nat.
Proof.
  induction 1 as [|x l Hx Hnd IH]; [by intros ?%elem_of_nil|].
  intros [<-|Hin]%elem_of_cons; cbn [List.filter length].
  - assert (List.filter (fun v => negb (v =? 0)%Z) l = l) as Hl.
    { clear IH Hnd. induction l as [|y l IH]; [done|]. cbn [List.filter].
      apply not_elem_of_cons in Hx as [Hy Hl].
      destruct (Z.eqb_spec y 0); [congruence|]. simpl. by rewrite IH. }
    rewrite Z.eqb_refl. simpl negb. cbv iota. rewrite Hl. lia.
  - destruct (Z.eqb_spec x 0) as [->|]; [done|]. simpl negb. cbv iota.
    cbn [length]. specialize (IH Hin). lia.
Qed.

Lemma np_unique_NoDup (labels : grid Z) : NoDup (np_unique labels).
Proof.
  unfold np_unique. rewrite merge_sort_Permutation. apply NoDup_remove_dups.
Qed.

Lemma elem_of_np_unique (labels : grid Z) (v : Z) :
  v ∈ np_unique labels <-> v ∈ concat labels.
Proof.
  unfold np_unique. by rewrite merge_sort_Permutation, elem_of_remove_dups.
Qed.

Lemma np_unique_background (labels : grid Z) :
  0%Z ∈ concat labels ->
  (len (np_unique labels) - 1 = len (non_background labels))%Z.
Proof.
  intros Hin. unfold non_background, len.
  pose proof (filter_nonzero_NoDup (np_unique labels) (np_unique_NoDup _)).
  rewrite elem_of_np_unique in H. specialize (H Hin). lia.
Qed.

Section Separator.
Context `{Vision}.

(** Run the [try] block along the outcomes recorded in the context. *)
Ltac run_block :=
  repeat (first [rewrite result_libcall | rewrite result_bind];
          match goal with
          | Hx : ?c = _ |- context [match ?c with _ => _ end] => rewrite Hx
          end; cbv beta iota).

Lemma try_block_fails (mask : grid Z) (cs : list contour) (e : exn) :
  step_fails mask cs e <-> result (try_block mask cs) = Raise e.
Proof.
  unfold try_block. cbv zeta. split.
  - intros [H1|img H1 H2|img dist H1 H2 H3|img dist coords H1 H2 H3 Hne H4
           |img dist coords mm H1 H2 H3 Hne H4 H5
           |img dist coords mm markers n H1 H2 H3 Hne H4 H5 H6];
      unfold blank, foreground in *; try apply len_nonzero in Hne;
      run_block; try rewrite Hne; run_block; done.
  - rewrite result_libcall.
    destruct (drawContours _ cs) as [img|e1] eqn:H1;
      [|intros [= ->]; by apply fails_rasterize].
    rewrite result_libcall.
    destruct (distance_transform_edt _) as [dist|e2] eqn:H2;
      [|intros [= ->]; by eapply fails_distance].
    rewrite result_libcall.
    destruct (peak_local_max dist 5 _) as [coords|e3] eqn:H3;
      [|intros [= ->]; by eapply fails_peaks].
    destruct (len coords =? 0)%Z eqn:Hne; [done|]. apply len_nonzero in Hne.
    rewrite result_bind.
    destruct (result (set_true _ coords)) as [mm|e4] eqn:H4;
      [|intros [= ->]; by eapply fails_markers].
    rewrite result_libcall.
    destruct (ndi_label mm) as [[markers n]|e5] eqn:H5;
      [|intros [= ->]; by eapply fails_label].
    rewrite result_libcall.
    destruct (watershed _ markers _) as [labels|e6] eqn:H6; [done|].
    intros [= ->]. by eapply fails_watershed.
Qed.

Lemma try_block_no_peaks (mask : grid Z) (cs : list contour) :
  no_peaks mask cs -> result (try_block mask cs) = Ok 0%Z.
Proof.
  intros [img dist H1 H2 H3]. unfold try_block, blank, foreground in *.
  cbv zeta. run_block. done.
Qed.

Lemma try_block_labels (mask : grid Z) (cs : list contour)
    (coords : list (nat * nat)) (labels : grid Z) :
  watershed_labels mask cs coords labels ->
  result (try_block mask cs) =
  Ok (py_maxZ 0 (len (np_unique labels) - 1 - len cs)).
Proof.
  intros [img dist mm markers n H1 H2 H3 Hne H4 H5 H6].
  unfold try_block, blank, foreground in *. cbv zeta.
  apply len_nonzero in Hne. run_block. rewrite Hne. run_block. done.
Qed.

(** The three ways the [try] block can end. *)
Lemma try_block_cases (mask : grid Z) (cs : list contour) :
  (exists e, step_fails mask cs e) \/ no_peaks mask cs \/
  (exists coords labels, watershed_labels mask cs coords labels).
Proof.
  destruct (drawContours (blank mask) cs) as [img|e1] eqn:H1;
    [|left; eexists; by apply fails_rasterize].
  destruct (distance_transform_edt (foreground img)) as [dist|e2] eqn:H2;
    [|left; eexists; by eapply fails_distance].
  destruct (peak_local_max dist 5 (foreground img)) as [coords|e3] eqn:H3;
    [|left; eexists; by eapply fails_peaks].
  destruct coords as [|p coords]; [right; left; by econstructor|].
  destruct (result (set_true (np_zeros_bool (shape dist)) (p :: coords)))
    as [mm|e4] eqn:H4; [|left; eexists; by eapply fails_markers].
  destruct (ndi_label mm) as [[markers n]|e5] eqn:H5;
    [|left; eexists; by eapply fails_label].
  destruct (watershed (gmap2 Qopp dist) markers (foreground img))
    as [labels|e6] eqn:H6; [|left; eexists; by eapply fails_watershed].
  right; right. eexists _, _. by econstructor.
Qed.

(** The separator never raises, and what it returns is not negative. *)
Lemma separate_total (mask : grid Z) (cs : list contour) :
  exists v, result (_separate_overlapped mask cs) = Ok v /\ (0 <= v)%Z.
Proof.
  unfold _separate_overlapped. rewrite result_try_except.
  destruct (try_block_cases mask cs) as [[e He]|[Hnp|(coords & labels & Hl)]].
  - apply try_block_fails in He. rewrite He. by exists 0%Z.
  - rewrite (try_block_no_peaks _ _ Hnp). by exists 0%Z.
  - rewrite (try_block_labels _ _ _ _ Hl). eexists; split; [done|].
    rewrite py_maxZ_max. lia.
Qed.

Lemma separate_failure (mask : grid Z) (cs : list contour) (e : exn) :
  step_fails mask cs e ->
  result (_separate_overlapped mask cs) = Ok 0%Z /\
  trace (_separate_overlapped mask cs) =
    trace (try_block mask cs) ++
    [Print ("Warning: Watershed separation failed: " +:+ exn_msg e)].
Proof.
  intros He%try_block_fails. unfold _separate_overlapped.
  by rewrite result_try_except, trace_try_except, He.
Qed.

End Separator.

(** ** [count_contours] *)

Section Counting.
Context `{Vision}.

Lemma separate_no_peaks (mask : grid Z) (cs : list contour) :
  no_peaks mask cs -> result (_separate_overlapped mask cs) = Ok 0%Z.
Proof.
  intros Hnp. unfold _separate_overlapped.
  by rewrite result_try_except, try_block_no_peaks.
Qed.

Lemma separate_labels (mask : grid Z) (cs : list contour)
    (coords : list (nat * nat)) (labels : grid Z) :
  watershed_labels mask cs coords labels ->
  result (_separate_overlapped mask cs) =
  Ok (Z.max 0 (len (np_unique labels) - 1 - len cs)).
Proof.
  intros Hl. unfold _separate_overlapped.
  by rewrite result_try_except, (try_block_labels _ _ _ _ Hl), py_maxZ_max.
Qed.

Lemma additional_step_total (thresh_img : grid Z) (ovc : list contour) :
  exists v, result (additional_step thresh_img ovc) = Ok v /\ (0 <= v)%Z.
Proof.
  destruct ovc as [|c ovc]; [by exists 0%Z|]. apply separate_total.
Qed.

Lemma count_contours_empty (self : SilkyNetInference) (mask : grid Z)
    (threshold : Z) :
  findContours (binarize mask threshold) = [] ->
  count_contours self mask threshold = ([], Ok (empty_result [])).
Proof.
  intros Hcs. unfold count_contours. cbv zeta. fold (binarize mask threshold).
  by rewrite Hcs.
Qed.

Lemma count_contours_nonempty (self : SilkyNetInference) (mask : grid Z)
    (threshold : Z) :
  let thresh_img := binarize mask threshold in
  let cs := findContours thresh_img in
  let m := np_median (map contourArea cs) in
  let st := Tally (tagged Artifact m (map contourArea cs))
                  (tagged Partial m (map contourArea cs))
                  (tagged Overlapped m (map contourArea cs))
                  (overlapped_of m cs) in
  cs <> [] ->
  exists add,
    result (additional_step thresh_img (overlapped_of m cs)) = Ok add /\
    (0 <= add)%Z /\
    count_contours self mask threshold =
      (trace (additional_step thresh_img (overlapped_of m cs)),
       Ok (full_result cs m st add)).
Proof.
  intros thresh_img cs m st Hne.
  destruct (additional_step_total thresh_img (overlapped_of m cs))
    as (add & Hadd & Hpos).
  exists add. split; [done|]. split; [done|].
  unfold count_contours. cbv zeta. fold (binarize mask threshold).
  fold thresh_img. fold cs. apply len_nonzero in Hne. rewrite Hne.
  fold m. rewrite classify_spec. rewrite bind_pure. fold st.
  change (match overlapped_contours st with
          | [] => mret 0%Z
          | _ :: _ => _separate_overlapped thresh_img (overlapped_contours st)
          end) with (additional_step thresh_img (overlapped_of m cs)).
  rewrite (M_eta (additional_step thresh_img (overlapped_of m cs))), Hadd.
  unfold mbind, M_bind, bind, mret, M_ret, ret. by rewrite app_nil_r.
Qed.

End Counting.

(** ** The confidence score *)

Lemma inject_Z_zero (t : Z) : Qeq_bool (inject_Z t) 0 = true <-> t = 0%Z.
Proof.
  rewrite Qeq_bool_iff. split; [|by intros ->].
  unfold Qeq. simpl. lia.
Qed.

Lemma clamp01_py (x : Q) : (py_max 0.0 (py_min 1.0 x) == clamp01 x)%Q.
Proof.
  unfold py_max, py_min, clamp01.
  destruct (Qlt_bool x 1.0) eqn:E1, (Qlt_bool x 0) eqn:E2;
    repeat case_match; qbool; try reflexivity; try lra.
Qed.

Lemma clamp01_range (x : Q) : (0 <= clamp01 x /\ clamp01 x <= 1)%Q.
Proof. unfold clamp01. repeat case_match; qbool; lra. Qed.

Lemma clamp01_pos (x : Q) : (0 < clamp01 x <-> 0 < x)%Q.
Proof. unfold clamp01. repeat case_match; qbool; lra. Qed.

Lemma ratio_range (a s : Q) :
  (0 <= a)%Q -> (a < s)%Q -> (0 <= a / s /\ a / s < 1)%Q.
Proof.
  intros Ha Hs. split.
  - apply Qle_shift_div_l; lra.
  - apply Qlt_shift_div_r; lra.
Qed.

Lemma confidence_zero (d : gmap string pyval) (a : Z) :
  d !! "total_count" = Some (VInt 0) ->
  d !! "artifacts_count" = Some (VInt a) ->
  _calculate_confidence d = ([], Ok 0%Q).
Proof.
  intros Ht Ha. unfold _calculate_confidence, getitem. rewrite Ht, Ha.
  done.
Qed.

Lemma confidence_positive_total (d : gmap string pyval) (t a o : Z) :
  d !! "total_count" = Some (VInt t) ->
  d !! "artifacts_count" = Some (VInt a) ->
  d !! "overlapped_count" = Some (VInt o) ->
  (0 < t)%Z -> (0 <= a)%Z ->
  _calculate_confidence d =
  ([], Ok (py_max 0.0 (py_min 1.0
     ((1.0 - inject_Z a / (inject_Z t + inject_Z a) * 0.5)
      * (1.0 - inject_Z o / inject_Z t * 0.3))))%Q).
Proof.
  intros Ht Ha Ho Htpos Hapos.
  unfold _calculate_confidence, getitem. rewrite Ht, Ha, Ho.
  unfold mret, M_ret, ret. rewrite !bind_pure. unfold num, ret.
  rewrite !bind_pure.
  assert (0 < inject_Z t)%Q as HtQ by (unfold Qlt; simpl; lia).
  assert (0 <= inject_Z a)%Q as HaQ by (unfold Qle; simpl; lia).
  destruct (Qeq_bool (inject_Z t) 0) eqn:E; qbool; [lra|].
  unfold truediv.
  destruct (Qeq_bool (inject_Z t + inject_Z a) 0) eqn:E1; qbool; [lra|].
  unfold ret. rewrite !bind_pure.
  destruct (Qlt_bool 0 (inject_Z t)) eqn:E2; qbool; [|lra].
  destruct (Qeq_bool (inject_Z t) 0) eqn:E3; qbool; [lra|].
  by rewrite bind_pure.
Qed.

(** ** Classification against the median *)

Lemma tagged_Forall (k k' : Classification) (m : Q) (areas : list Q) :
  Forall (fun a => tag m a = k') areas ->
  tagged k m areas = if Classification_eqb k' k then len areas else 0%Z.
Proof.
  induction 1 as [|a areas Ha _ IH]; [by destruct (Classification_eqb k' k)|].
  rewrite tagged_cons, Ha, IH. unfold len. simpl length.
  destruct (Classification_eqb k' k); lia.
Qed.

(** C2. For a non-empty contour list whose areas have median [m] (the
    middle of the sorted areas, the mean of the two middle ones for an even
    count), a contour of area [a] takes the Artifact branch exactly when
    [a < 0.2 m], the Partial branch exactly when [0.2 m <= a < 0.5 m], the
    Overlapped branch exactly when [a > m], and no branch exactly when
    [0.5 m <= a <= m]; the loop counts the contours of each branch, and the
    untagged ones enter the result only through the complement
    [len(contours) - artifacts - overlapped].  A contour has one tag, so
    the three buckets are disjoint. *)
Theorem classification_thresholds `{Vision} (cs : list contour) :
  cs <> [] ->
  let areas := map contourArea cs in
  let m := np_median areas in
  let s := np_sort areas in
  (Sorted Qle s /\ s ≡ₚ areas /\
   m = if Nat.even (length cs)
       then ((nth (length cs / 2 - 1) s 0 + nth (length cs / 2) s 0) / 2)%Q
       else nth (length cs / 2) s 0%Q) /\
  (forall c,
     let a := contourArea c in
     (tag m a = Artifact <-> a < 0.2 * m)%Q /\
     (tag m a = Partial <-> 0.2 * m <= a /\ a < 0.5 * m)%Q /\
     (tag m a = Overlapped <-> m < a)%Q /\
     (tag m a = Untagged <-> 0.5 * m <= a /\ a <= m)%Q) /\
  exists st,
    classify cs areas m = ([], Ok st) /\
    artifacts st = tagged Artifact m areas /\
    partial st = tagged Partial m areas /\
    overlapped st = tagged Overlapped m areas /\
    overlapped_contours st = overlapped_of m cs /\
    (len cs - artifacts st - overlapped st
     = tagged Untagged m areas + tagged Partial m areas)%Z.
Proof.
  intros Hne areas m s.
  assert (0 <= m)%Q as Hm.
  { apply np_median_nonneg, List.Forall_forall.
    intros a (c & <- & _)%in_map_iff. apply contourArea_nonneg. }
  split; [|split].
  - split; [apply np_sort_sorted|]. split; [apply np_sort_perm|].
    unfold m, np_median, areas. by rewrite length_map.
  - intros c a. pose proof (contourArea_nonneg c) as Ha. fold a in Ha.
    split; [apply tag_Artifact|]. split; [apply tag_Partial|].
    split; [by apply tag_Overlapped|by apply tag_Untagged].
  - eexists. split; [apply classify_spec|]. simpl.
    repeat split; try done.
    pose proof (tagged_total m areas) as Htot.
    unfold areas in *. unfold len in *. rewrite length_map in Htot. lia.
Qed.

(** ** Scale invariance *)




(** ** The returned dictionaries *)

Lemma full_result_lookup (cs : list contour) (m : Q) (st : tally) (add : Z) :
  let d := full_result cs m st add in
  d !! "total_count"
    = Some (VInt (len cs - artifacts st - overlapped st + add + partial st)) /\
  d !! "individual_count"
    = Some (VInt (len cs - artifacts st - overlapped st)) /\
  d !! "overlapped_count" = Some (VInt (overlapped st)) /\
  d !! "additional_separated" = Some (VInt add) /\
  d !! "partial_count" = Some (VInt (partial st)) /\
  d !! "artifacts_count" = Some (VInt (artifacts st)) /\
  d !! "contours" = Some (VContours cs) /\
  d !! "median_area" = Some (VFloat m).
Proof. unfold full_result. cbv zeta. repeat split; by simplify_map_eq. Qed.

Lemma empty_result_lookup (cs : list contour) :
  let d := empty_result cs in
  d !! "total_count" = Some (VInt 0) /\
  d !! "individual_count" = Some (VInt 0) /\
  d !! "overlapped_count" = Some (VInt 0) /\
  d !! "additional_separated" = None /\
  d !! "partial_count" = Some (VInt 0) /\
  d !! "artifacts_count" = Some (VInt 0) /\
  d !! "contours" = Some (VContours cs) /\
  d !! "median_area" = None.
Proof. unfold empty_result. cbv zeta. repeat split; by simplify_map_eq. Qed.

(** ** The counting invariant *)

Section Invariant.
Context `{Vision}.

(** C1. For every mask [count_contours] returns a dictionary; with [n] the
    number of contours, its entries satisfy
    [individual = n - artifacts - overlapped] and every count is at least
    0.  When at least one contour was found the dictionary has an
    [additional_separated] entry, not negative, and
    [total = individual + partial + additional_separated].  When no contour
    was found the dictionary has no [additional_separated] entry at all:
    the identity cannot be read off the returned record, whose counts are
    all 0. *)
Theorem count_contours_invariant (self : SilkyNetInference) (mask : grid Z)
    (threshold : Z) :
  let cs := findContours (binarize mask threshold) in
  exists d tot ind ov par art,
    result (count_contours self mask threshold) = Ok d /\
    d !! "contours" = Some (VContours cs) /\
    d !! "total_count" = Some (VInt tot) /\
    d !! "individual_count" = Some (VInt ind) /\
    d !! "overlapped_count" = Some (VInt ov) /\
    d !! "partial_count" = Some (VInt par) /\
    d !! "artifacts_count" = Some (VInt art) /\
    (ind = len cs - art - ov)%Z /\
    (0 <= tot /\ 0 <= ind /\ 0 <= ov /\ 0 <= par /\ 0 <= art)%Z /\
    ((cs <> [] /\
      exists add, d !! "additional_separated" = Some (VInt add) /\
                  (0 <= add)%Z /\ (tot = ind + par + add)%Z) \/
     (cs = [] /\ d !! "additional_separated" = None /\
      (tot = ind + par)%Z)).
Proof.
  intros cs. destruct (decide (cs = [])) as [Hcs|Hcs].
  - rewrite (count_contours_empty self mask threshold Hcs).
    destruct (empty_result_lookup []) as (?&?&?&?&?&?&?&?).
    exists (empty_result []), 0%Z, 0%Z, 0%Z, 0%Z, 0%Z.
    rewrite Hcs. repeat split; try done. by right.
  - destruct (count_contours_nonempty self mask threshold Hcs)
      as (add & _ & Hadd & ->). fold cs.
    set (m := np_median (map contourArea cs)).
    set (st := Tally _ _ _ _).
    destruct (full_result_lookup cs m st add) as (?&?&?&?&?&?&?&?).
    pose proof (tagged_total m (map contourArea cs)) as Htot.
    pose proof (tagged_nonneg Artifact m (map contourArea cs)).
    pose proof (tagged_nonneg Partial m (map contourArea cs)).
    pose proof (tagged_nonneg Overlapped m (map contourArea cs)).
    pose proof (tagged_nonneg Untagged m (map contourArea cs)).
    assert (len (map contourArea cs) = len cs) as Hlen.
    { unfold len. by rewrite length_map. }
    eexists (full_result cs m st add), _, _, _, _, _.
    repeat split; try done; simpl; try lia.
    left. split; [done|]. exists add. repeat split; try done. lia.
Qed.

(** C9. When no contour is found, [count_contours] returns without error
    and without calling the separator; the entries [total_count],
    [individual_count], [overlapped_count], [partial_count] and
    [artifacts_count] are 0, the confidence computed from the dictionary is
    0.0 -- and the dictionary has neither an [additional_separated] nor a
    [median_area] entry, unlike the one returned when contours exist. *)
Theorem empty_contours_result (self : SilkyNetInference) (mask : grid Z)
    (threshold : Z) :
  findContours (binarize mask threshold) = [] ->
  exists d,
    count_contours self mask threshold = ([], Ok d) /\
    d !! "total_count" = Some (VInt 0) /\
    d !! "individual_count" = Some (VInt 0) /\
    d !! "overlapped_count" = Some (VInt 0) /\
    d !! "partial_count" = Some (VInt 0) /\
    d !! "artifacts_count" = Some (VInt 0) /\
    d !! "contours" = Some (VContours []) /\
    d !! "additional_separated" = None /\
    d !! "median_area" = None /\
    _calculate_confidence d = ([], Ok 0%Q).
Proof.
  intros Hcs. exists (empty_result []).
  destruct (empty_result_lookup []) as (?&?&?&?&?&?&?&?).
  repeat split; try done. by apply count_contours_empty.
Qed.

Lemma overlapped_of_none (m : Q) (l : list contour) :
  (forall c, c ∈ l -> tag m (contourArea c) <> Overlapped) ->
  overlapped_of m l = [].
Proof.
  unfold overlapped_of. induction l as [|c l IH]; intros Hl; [done|].
  simpl. pose proof (Hl c ltac:(left)) as Hc.
  destruct (tag m (contourArea c)); simpl; try done;
    apply IH; intros c' Hc'; apply Hl; by right.
Qed.

(** C10. When every contour of a non-empty contour list has area 0, the
    median is 0 and no contour takes the Artifact, Partial or Overlapped
    branch: the three counts and [additional_separated] are 0, the
    separator is not called, and [total_count] and [individual_count] are
    the number of contours. *)
Theorem zero_area_contours (self : SilkyNetInference) (mask : grid Z)
    (threshold : Z) :
  let cs := findContours (binarize mask threshold) in
  cs <> [] ->
  (forall c, c ∈ cs -> contourArea c == 0)%Q ->
  (np_median (map contourArea cs) == 0)%Q /\
  (forall c, c ∈ cs ->
     tag (np_median (map contourArea cs)) (contourArea c) = Untagged) /\
  exists d,
    count_contours self mask threshold = ([], Ok d) /\
    d !! "artifacts_count" = Some (VInt 0) /\
    d !! "partial_count" = Some (VInt 0) /\
    d !! "overlapped_count" = Some (VInt 0) /\
    d !! "additional_separated" = Some (VInt 0) /\
    d !! "individual_count" = Some (VInt (len cs)) /\
    d !! "total_count" = Some (VInt (len cs)).
Proof.
  intros cs Hne Hzero.
  set (m := np_median (map contourArea cs)).
  assert (m == 0)%Q as Hm.
  { destruct (np_median_bounds 0 0 (map contourArea cs)) as [? ?].
    - by destruct cs.
    - apply List.Forall_forall. intros a (c & <- & Hc)%in_map_iff.
      rewrite (Hzero c) by (by apply list_elem_of_In). lra.
    - fold m in H0, H1. lra. }
  assert (forall c, c ∈ cs -> tag m (contourArea c) = Untagged) as Htag.
  { intros c Hc. pose proof (Hzero c Hc) as Ha.
    apply tag_Untagged; lra. }
  split; [done|]. split; [done|].
  assert (Forall (fun a => tag m a = Untagged) (map contourArea cs)) as Hall.
  { apply List.Forall_forall. intros a (c & <- & Hc)%in_map_iff.
    by apply Htag, list_elem_of_In. }
  assert (overlapped_of m cs = []) as Hov.
  { apply overlapped_of_none. intros c Hc. by rewrite Htag. }
  destruct (count_contours_nonempty self mask threshold Hne)
    as (add & Hadd & _ & ->).
  fold cs m in Hadd |- *. rewrite Hov in Hadd |- *.
  simpl in Hadd. injection Hadd as <-.
  rewrite !(tagged_Forall _ Untagged m _ Hall). simpl Classification_eqb.
  cbv iota. eexists. split; [done|].
  destruct (full_result_lookup cs m (Tally 0 0 0 []) 0)
    as (Htot & Hind & ? & ? & ? & ? & _ & _).
  cbn [artifacts partial overlapped] in Htot, Hind.
  replace (len cs - 0 - 0 + 0 + 0)%Z with (len cs) in Htot by lia.
  replace (len cs - 0 - 0)%Z with (len cs) in Hind by lia.
  repeat split; done.
Qed.

End Invariant.

(** ** What the separator adds *)

Section Additional.
Context `{Vision}.

(** C5. With [ovc] the contours tagged Overlapped: when contours exist and
    [ovc] is empty the separator is not called (no library call is made) and
    [additional_separated] is 0; when [ovc] is not empty and the peak finder
    finds no peak, [additional_separated] is 0; when the watershed returns
    [labels], [additional_separated] is
    [max(0, len(unique(labels)) - 1 - len(ovc))], which is
    [max(0, separated - len(ovc))] for [separated] the number of distinct
    non-background labels as soon as the background label occurs; and
    whenever contours exist, [overlapped_count = 0] gives
    [additional_separated = 0].  When no contour was found,
    [overlapped_count] is 0 and the dictionary has no
    [additional_separated] entry. *)
Theorem additional_separated_spec (self : SilkyNetInference)
    (mask : grid Z) (threshold : Z) :
  let thresh_img := binarize mask threshold in
  let cs := findContours thresh_img in
  let ovc := overlapped_of (np_median (map contourArea cs)) cs in
  exists d,
    result (count_contours self mask threshold) = Ok d /\
    (cs <> [] -> d !! "overlapped_count" = Some (VInt (len ovc))) /\
    (cs <> [] -> ovc = [] ->
       d !! "additional_separated" = Some (VInt 0) /\
       trace (count_contours self mask threshold) = []) /\
    (cs <> [] -> ovc <> [] -> no_peaks thresh_img ovc ->
       d !! "additional_separated" = Some (VInt 0)) /\
    (cs <> [] -> ovc <> [] ->
       forall coords labels, watershed_labels thresh_img ovc coords labels ->
       d !! "additional_separated"
         = Some (VInt (Z.max 0 (len (np_unique labels) - 1 - len ovc))) /\
       (0%Z ∈ concat labels ->
        d !! "additional_separated"
          = Some (VInt (Z.max 0 (len (non_background labels) - len ovc))))) /\
    (cs <> [] -> d !! "overlapped_count" = Some (VInt 0) ->
       d !! "additional_separated" = Some (VInt 0)) /\
    (cs = [] ->
       d !! "overlapped_count" = Some (VInt 0) /\
       d !! "additional_separated" = None).
Proof.
  intros thresh_img cs ovc. destruct (decide (cs = [])) as [Hcs|Hcs].
  { rewrite (count_contours_empty self mask threshold Hcs).
    destruct (empty_result_lookup []) as (?&?&?&?&?&?&?&?).
    exists (empty_result []). repeat split; done. }
  destruct (count_contours_nonempty self mask threshold Hcs)
    as (add & Hadd & Hpos & Hcc).
  fold thresh_img cs in Hadd, Hcc. fold ovc in Hadd, Hcc. rewrite Hcc.
  set (m := np_median (map contourArea cs)) in *.
  set (st := Tally _ _ _ _) in *.
  destruct (full_result_lookup cs m st add) as (_&_&Hov&Hd&_).
  cbn [overlapped st] in Hov.
  rewrite <- overlapped_of_length in Hov. fold ovc in Hov.
  exists (full_result cs m st add). split; [done|].
  assert (ovc = [] -> add = 0%Z /\ trace (additional_step thresh_img ovc) = [])
    as Hnone.
  { intros Hnil. rewrite Hnil in Hadd |- *. simpl in Hadd. by injection Hadd. }
  split; [intros _; exact Hov|]. split; [|split; [|split; [|split]]].
  - intros _ Hnil. destruct (Hnone Hnil) as [-> Htr]. simpl. by rewrite Htr.
  - intros _ Hne Hnp. destruct ovc as [|c ovc'] eqn:Eo; [done|].
    simpl in Hadd. rewrite (separate_no_peaks _ _ Hnp) in Hadd.
    by injection Hadd as <-.
  - intros _ Hne coords labels Hl. destruct ovc as [|c ovc'] eqn:Eo; [done|].
    simpl in Hadd. rewrite (separate_labels _ _ _ _ Hl) in Hadd.
    injection Hadd as <-. split; [done|]. intros Hbg.
    by rewrite <- (np_unique_background labels Hbg).
  - intros _ Hzero. rewrite Hov in Hzero. injection Hzero as Hzero.
    destruct ovc as [|c ovc'] eqn:Eo; [|unfold len in Hzero; simpl in Hzero; lia].
    by destruct (Hnone eq_refl) as [-> _].
  - done.
Qed.

End Additional.

(** ** The confidence score *)

#[global] Instance clamp01_proper : Proper (Qeq ==> Qeq) clamp01.
Proof.
  intros x y Hxy. unfold clamp01.
  rewrite (Qlt_bool_proper x y Hxy 0%Q 0%Q (Qeq_refl 0%Q)),
    (Qlt_bool_proper 1%Q 1%Q (Qeq_refl 1%Q) x y Hxy).
  destruct (Qlt_bool y 0), (Qlt_bool 1 y); try reflexivity; exact Hxy.
Qed.

Lemma confidence_value (d : gmap string pyval) (t a o : Z) :
  d !! "total_count" = Some (VInt t) ->
  d !! "artifacts_count" = Some (VInt a) ->
  d !! "overlapped_count" = Some (VInt o) ->
  (0 <= t)%Z -> (0 <= a)%Z ->
  exists c, _calculate_confidence d = ([], Ok c) /\
            (c == spec_confidence t a o)%Q.
Proof.
  intros Ht Ha Ho Htpos Hapos. unfold spec_confidence.
  destruct (Z.eqb_spec t 0) as [->|Hne].
  - exists 0%Q. split; [by eapply confidence_zero|reflexivity].
  - eexists. split; [apply (confidence_positive_total d t a o); try done; lia|].
    rewrite clamp01_py. apply clamp01_proper. cbv zeta. ring.
Qed.

(** C3. For a count result with non-negative [total_count] and
    [artifacts_count], the confidence is 0.0 when [total_count] is 0 and
    otherwise
    [(1 - 0.5 artifacts/(total + artifacts)) (1 - 0.3 overlapped/total)]
    clamped into [0, 1]; in both cases it lies in [0, 1], and no error is
    raised. *)
Theorem confidence_formula (d : gmap string pyval) (t a o : Z) :
  d !! "total_count" = Some (VInt t) ->
  d !! "artifacts_count" = Some (VInt a) ->
  d !! "overlapped_count" = Some (VInt o) ->
  (0 <= t)%Z -> (0 <= a)%Z ->
  exists c,
    _calculate_confidence d = ([], Ok c) /\
    (t = 0%Z -> c == 0)%Q /\
    (t <> 0%Z ->
     c == clamp01 ((1 - 0.5 * (inject_Z a / (inject_Z t + inject_Z a)))
                   * (1 - 0.3 * (inject_Z o / inject_Z t))))%Q /\
    (0 <= c /\ c <= 1)%Q.
Proof.
  intros Ht Ha Ho Htpos Hapos.
  destruct (confidence_value d t a o Ht Ha Ho Htpos Hapos) as (c & Hc & Hspec).
  exists c. split; [done|]. unfold spec_confidence in Hspec.
  destruct (Z.eqb_spec t 0) as [->|Hne].
  - repeat split; try done; rewrite Hspec; lra.
  - cbv zeta in Hspec. repeat split; try done; rewrite Hspec;
      apply clamp01_range.
Qed.

Lemma Z_Q_ratio (o t : Z) :
  (0.3 * inject_Z o < inject_Z t)%Q <-> (3 * o < 10 * t)%Z.
Proof. unfold Qlt. simpl. lia. Qed.

Lemma overlap_factor_pos (o t : Q) :
  (0 < t)%Q -> (0 < 1 - 0.3 * (o / t) <-> 0.3 * o < t)%Q.
Proof.
  intros Ht. assert (o == (o / t) * t)%Q as Ho by (field; lra).
  revert Ho. generalize (o / t)%Q. intros y Ho. rewrite Ho.
  split; intros Hy.
  - assert (0.3 * y < 1)%Q as Hy' by lra.
    apply (proj2 (Qmult_lt_r _ _ t Ht)) in Hy'.
    assert (0.3 * (y * t) == 0.3 * y * t)%Q as -> by ring. lra.
  - assert (0.3 * y * t < 1 * t)%Q as Hy'.
    { assert (0.3 * y * t == 0.3 * (y * t))%Q as -> by ring. lra. }
    apply (proj1 (Qmult_lt_r _ _ t Ht)) in Hy'. lra.
Qed.

(** C6, as the code has it.  The confidence is 0.0 when [total_count] is
    0.  For [total_count > 0] it is positive exactly when
    [3 overlapped_count < 10 total_count]; when the overlapped contours are
    at least ten thirds of the total, the overlap factor is not positive
    and the clamp returns 0.0. *)
Theorem confidence_zero_iff (d : gmap string pyval) (t a o : Z) :
  d !! "total_count" = Some (VInt t) ->
  d !! "artifacts_count" = Some (VInt a) ->
  d !! "overlapped_count" = Some (VInt o) ->
  (0 <= t)%Z -> (0 <= a)%Z ->
  exists c,
    _calculate_confidence d = ([], Ok c) /\
    (t = 0%Z -> c == 0)%Q /\
    ((0 < t)%Z -> (0 < c)%Q <-> (3 * o < 10 * t)%Z) /\
    ((c == 0)%Q <-> t = 0%Z \/ (10 * t <= 3 * o)%Z).
Proof.
  intros Ht Ha Ho Htpos Hapos.
  destruct (confidence_value d t a o Ht Ha Ho Htpos Hapos) as (c & Hc & Hspec).
  unfold spec_confidence in Hspec. cbv zeta in Hspec.
  assert (t = 0%Z -> c == 0)%Q as Hzero.
  { intros ->. by rewrite Hspec. }
  assert (t <> 0%Z ->
          c == clamp01 ((1 - 0.5 * (inject_Z a / (inject_Z t + inject_Z a)))
                        * (1 - 0.3 * (inject_Z o / inject_Z t))))%Q as Hval.
  { intros Hne. rewrite Hspec. by destruct (Z.eqb_spec t 0). }
  assert (0 <= c)%Q as Hrange.
  { destruct (decide (t = 0%Z)) as [Hz|Hnz].
    - rewrite (Hzero Hz). lra.
    - rewrite (Hval Hnz). apply clamp01_range. }
  exists c. split; [done|]. split; [done|].
  assert ((0 < t)%Z -> (0 < c)%Q <-> (3 * o < 10 * t)%Z) as Hpos.
  { intros Hlt. rewrite Hval by lia. rewrite clamp01_pos.
    assert (0 < inject_Z t)%Q as HtQ by (unfold Qlt; simpl; lia).
    assert (0 <= inject_Z a)%Q as HaQ by (unfold Qle; simpl; lia).
    destruct (ratio_range (inject_Z a) (inject_Z t + inject_Z a)) as [Hx0 Hx1];
      [done|lra|].
    set (x := (inject_Z a / (inject_Z t + inject_Z a))%Q) in *.
    rewrite <- Z_Q_ratio, <- (overlap_factor_pos _ _ HtQ).
    set (F := (1 - 0.3 * (inject_Z o / inject_Z t))%Q).
    assert (0 < 1 - 0.5 * x)%Q as Hf by lra.
    split; intros HF.
    - destruct (Qlt_le_dec 0 F) as [|Hle]; [done|].
      assert (0 <= (1 - 0.5 * x) * - F)%Q as Hp
        by (apply Qmult_le_0_compat; lra).
      assert ((1 - 0.5 * x) * - F == - ((1 - 0.5 * x) * F))%Q as Heq by ring.
      rewrite Heq in Hp. lra.
    - apply Qmult_lt_0_compat; lra. }
  split; [done|].
  destruct (decide (t = 0%Z)) as [->|Hne].
  - split; [by left|]. intros _. by apply Hzero.
  - specialize (Hpos ltac:(lia)). split.
    + intros Hc0. right.
      destruct (Z_lt_le_dec (3 * o) (10 * t)) as [Hlt|]; [|done].
      apply Hpos in Hlt. lra.
    + intros [?|Hle]; [done|].
      destruct (Qlt_le_dec 0 c) as [Hlt|]; [|lra].
      apply Hpos in Hlt. lia.
Qed.

(** ** Mask dimensions *)

(** C7, as the code has it.  [count_contours] makes no use of the
    configured size: for a mask of any dimensions it returns a dictionary
    and raises nothing, and the result is the same for every configured
    size. *)
Theorem count_contours_any_size `{Vision} (self : SilkyNetInference)
    (mask : grid Z) (threshold : Z) :
  (exists d, result (count_contours self mask threshold) = Ok d) /\
  (forall self', count_contours self' mask threshold
                 = count_contours self mask threshold).
Proof.
  split; [|done].
  destruct (decide (findContours (binarize mask threshold) = []))
    as [Hcs|Hcs].
  - rewrite (count_contours_empty self mask threshold Hcs). by eexists.
  - destruct (count_contours_nonempty self mask threshold Hcs)
      as (add & _ & _ & ->). by eexists.
Qed.

(** ** Failures of the separator *)

Section Pipeline.
Context `{Vision}.

Lemma count_contours_confidence (self : SilkyNetInference) (mask : grid Z)
    (threshold : Z) :
  exists d cs c,
    result (count_contours self mask threshold) = Ok d /\
    d !! "contours" = Some (VContours cs) /\
    _calculate_confidence d = ([], Ok c).
Proof.
  destruct (decide (findContours (binarize mask threshold) = []))
    as [Hcs|Hcs].
  - rewrite (count_contours_empty self mask threshold Hcs).
    destruct (empty_result_lookup []) as (?&?&?&?&?&?&?&?).
    exists (empty_result []), [], 0%Q. repeat split; try done.
  - destruct (count_contours_nonempty self mask threshold Hcs)
      as (add & _ & Hadd & ->).
    set (cs := findContours (binarize mask threshold)).
    set (m := np_median (map contourArea cs)).
    set (st := Tally _ _ _ _).
    destruct (full_result_lookup cs m st add) as (Ht&_&Ho&_&_&Ha&Hc&_).
    pose proof (tagged_total m (map contourArea cs)) as Htot.
    pose proof (tagged_nonneg Artifact m (map contourArea cs)).
    pose proof (tagged_nonneg Partial m (map contourArea cs)).
    pose proof (tagged_nonneg Untagged m (map contourArea cs)).
    assert (len (map contourArea cs) = len cs) as Hlen.
    { unfold len. by rewrite length_map. }
    destruct (confidence_value _ _ _ _ Ht Ha Ho) as (c & Hconf & _);
      [simpl; lia|simpl; lia|].
    by exists (full_result cs m st add), cs, c.
Qed.

(** An exception leaving [predict] comes from the network or from the
    drawing of the overlay. *)
Lemma predict_raise_source (self : SilkyNetInference) (image : rgb)
    (e : exn) :
  result (predict self image) = Raise e ->
  result (segment self image) = Raise e \/
  exists mask cs,
    result (segment self image) = Ok mask /\
    result (create_visualization self image mask cs) = Raise e.
Proof.
  unfold predict. rewrite result_bind.
  destruct (result (segment self image)) as [mask|e1] eqn:Hseg;
    [|intros [= ->]; by left].
  destruct (count_contours_confidence self mask default_threshold)
    as (d & cs & c & Hd & Hcs & Hc).
  rewrite result_bind, Hd, result_bind. unfold getitem. rewrite Hcs.
  unfold ret. rewrite bind_pure. cbn [as_contours result snd mret M_ret ret].
  rewrite result_bind.
  destruct (result (create_visualization self image mask cs)) as [viz|e2]
    eqn:Hviz; [|intros [= ->]; right; by exists mask, cs].
  by rewrite result_bind, Hc.
Qed.

(** The overlay is the one place where the size of the mask matters: a
    mask whose shape is not that of the resized image makes the boolean
    indexing fail, after the count has been computed. *)
Lemma visualization_shape_mismatch (self : SilkyNetInference) (image : rgb)
    (mask : grid Z) (cs : list contour) :
  shape (pil_resize image (img_size self)) <> shape mask ->
  create_visualization self image mask cs =
  ([], Raise (IndexError "boolean index did not match indexed array")).
Proof.
  intros Hshape. unfold create_visualization, tint_where. cbv zeta.
  by destruct (decide _).
Qed.

(** C4. Whatever step of the [try] block of the separator fails --
    drawing the overlapped contours, the distance transform, the peak
    finder, the marker array, the labeling of the markers or the
    watershed -- [_separate_overlapped] prints its warning and returns 0;
    it never raises.  [count_contours] then returns a dictionary whose
    [additional_separated] is 0, and an exception that leaves [predict] is
    one of the network or of the overlay drawing, never one of the
    separator. *)
Theorem separation_failure_contained (self : SilkyNetInference)
    (mask : grid Z) (threshold : Z) (image : rgb) :
  (forall thresh_img ovc e,
     step_fails thresh_img ovc e ->
     result (_separate_overlapped thresh_img ovc) = Ok 0%Z /\
     trace (_separate_overlapped thresh_img ovc) =
       trace (try_block thresh_img ovc) ++
       [Print ("Warning: Watershed separation failed: " +:+ exn_msg e)]) /\
  (forall thresh_img ovc,
     exists v, result (_separate_overlapped thresh_img ovc) = Ok v) /\
  (let thresh_img := binarize mask threshold in
   let cs := findContours thresh_img in
   let ovc := overlapped_of (np_median (map contourArea cs)) cs in
   forall e,
     ovc <> [] -> step_fails thresh_img ovc e ->
     exists d,
       result (count_contours self mask threshold) = Ok d /\
       d !! "additional_separated" = Some (VInt 0)) /\
  (forall e,
     result (predict self image) = Raise e ->
     result (segment self image) = Raise e \/
     exists mask' cs,
       result (segment self image) = Ok mask' /\
       result (create_visualization self image mask' cs) = Raise e).
Proof.
  split; [|split; [|split]].
  - intros thresh_img ovc e. apply separate_failure.
  - intros thresh_img ovc.
    destruct (separate_total thresh_img ovc) as (v & Hv & _). by exists v.
  - intros thresh_img cs ovc e Hne Hfail.
    assert (cs <> []) as Hcs.
    { intros Hnil. apply Hne. unfold ovc. by rewrite Hnil. }
    destruct (count_contours_nonempty self mask threshold Hcs)
      as (add & Hadd & _ & ->).
    fold thresh_img cs in Hadd. fold ovc in Hadd.
    destruct ovc as [|c ovc'] eqn:Eo; [done|]. simpl in Hadd.
    destruct (separate_failure _ _ _ Hfail) as [Hres _].
    rewrite Hres in Hadd. injection Hadd as <-.
    eexists. split; [done|]. apply full_result_lookup.
  - apply predict_raise_source.
Qed.

End Pipeline.

(** * Further properties *)

(** ** The confidence score: shape *)

Lemma clamp01_mono (x y : Q) : (x <= y)%Q -> (clamp01 x <= clamp01 y)%Q.
Proof.
  intros Hxy. unfold clamp01. repeat case_match; qbool; lra.
Qed.

Lemma clamp01_one (x : Q) : (clamp01 x == 1 <-> 1 <= x)%Q.
Proof. unfold clamp01. repeat case_match; qbool; split; lra. Qed.

Lemma inject_Z_pos (t : Z) : (0 < t)%Z -> (0 < inject_Z t)%Q.
Proof. unfold Qlt. simpl. lia. Qed.

Lemma inject_Z_nonneg (t : Z) : (0 <= t)%Z -> (0 <= inject_Z t)%Q.
Proof. unfold Qle. simpl. lia. Qed.

Lemma inject_Z_le (a b : Z) : (a <= b)%Z -> (inject_Z a <= inject_Z b)%Q.
Proof. unfold Qle. simpl. lia. Qed.

Lemma inject_Z_eq0 (a : Z) : (inject_Z a == 0)%Q -> a = 0%Z.
Proof. unfold Qeq. simpl. lia. Qed.

(** The two factors of the product. *)
Lemma div_mul_cancel (a s : Q) : ~ (s == 0)%Q -> (a / s * s == a)%Q.
Proof. intros Hs. field. exact Hs. Qed.

Lemma ratio_mono (a a' t : Q) :
  (0 < t)%Q -> (0 <= a)%Q -> (a <= a')%Q ->
  (a / (t + a) <= a' / (t + a'))%Q.
Proof.
  intros Ht Ha Haa.
  destruct (ratio_range a' (t + a')) as [Hx0 Hx1]; [lra|lra|].
  pose proof (div_mul_cancel a' (t + a') ltac:(lra)) as Hx.
  revert Hx0 Hx1 Hx. generalize (a' / (t + a'))%Q. intros x' Hx0 Hx1 Hx.
  apply Qle_shift_div_r; [lra|].
  assert (0 <= (1 - x') * (a' - a))%Q as Hp
    by (apply Qmult_le_0_compat; lra).
  assert (x' * (t + a) == x' * (t + a') - (a' - a) + (1 - x') * (a' - a))%Q
    as -> by ring.
  rewrite Hx. lra.
Qed.

Lemma overlap_ratio_mono (o o' t : Q) :
  (0 < t)%Q -> (o <= o')%Q -> (o / t <= o' / t)%Q.
Proof.
  intros Ht Ho. unfold Qdiv. apply Qmult_le_compat_r; [done|].
  apply Qlt_le_weak, Qinv_lt_0_compat, Ht.
Qed.

Lemma product_mono (f f' g g' : Q) :
  (0 < f')%Q -> (f' <= f)%Q -> (g' <= g)%Q ->
  (clamp01 (f' * g') <= clamp01 (f * g))%Q.
Proof.
  intros Hf' Hf Hg.
  destruct (Qlt_le_dec g 0) as [Hneg|Hpos].
  - assert (f * g <= 0)%Q as H1.
    { assert (0 <= f * - g)%Q as Hp by (apply Qmult_le_0_compat; lra).
      assert (f * - g == - (f * g))%Q as Heq by ring.
      rewrite Heq in Hp. lra. }
    assert (f' * g' <= 0)%Q as H2.
    { assert (0 <= f' * - g')%Q as Hp by (apply Qmult_le_0_compat; lra).
      assert (f' * - g' == - (f' * g'))%Q as Heq by ring.
      rewrite Heq in Hp. lra. }
    pose proof (clamp01_range (f * g)).
    assert (clamp01 (f' * g') == 0)%Q as ->; [|lra].
    unfold clamp01. repeat case_match; qbool; try reflexivity; lra.
  - apply clamp01_mono.
    assert (0 <= (f - f') * g)%Q as H1 by (apply Qmult_le_0_compat; lra).
    assert (0 <= f' * (g - g'))%Q as H2 by (apply Qmult_le_0_compat; lra).
    assert (f * g == f' * g' + (f - f') * g + f' * (g - g'))%Q as -> by ring.
    lra.
Qed.

Lemma confidence_at (d : gmap string pyval) (t a o : Z) :
  d !! "total_count" = Some (VInt t) ->
  d !! "artifacts_count" = Some (VInt a) ->
  d !! "overlapped_count" = Some (VInt o) ->
  (0 < t)%Z -> (0 <= a)%Z ->
  exists c,
    _calculate_confidence d = ([], Ok c) /\
    (c == clamp01 ((1 - 0.5 * (inject_Z a / (inject_Z t + inject_Z a)))
                   * (1 - 0.3 * (inject_Z o / inject_Z t))))%Q.
Proof.
  intros Ht Ha Ho Htpos Hapos.
  destruct (confidence_value d t a o Ht Ha Ho ltac:(lia) Hapos)
    as (c & Hc & Hspec).
  exists c. split; [done|]. rewrite Hspec. unfold spec_confidence.
  destruct (Z.eqb_spec t 0); [lia|]. reflexivity.
Qed.

(** X1. For a count with [total_count > 0] and non-negative
    [artifacts_count] and [overlapped_count], the confidence is 1.0 exactly
    when there is no artifact and no overlapped contour. *)
Theorem confidence_one_iff (d : gmap string pyval) (t a o : Z) :
  d !! "total_count" = Some (VInt t) ->
  d !! "artifacts_count" = Some (VInt a) ->
  d !! "overlapped_count" = Some (VInt o) ->
  (0 < t)%Z -> (0 <= a)%Z -> (0 <= o)%Z ->
  exists c,
    _calculate_confidence d = ([], Ok c) /\
    ((c == 1)%Q <-> a = 0%Z /\ o = 0%Z).
Proof.
  intros Ht Ha Ho Htpos Hapos Hopos.
  destruct (confidence_at d t a o Ht Ha Ho Htpos Hapos) as (c & Hc & Hval).
  exists c. split; [done|]. rewrite Hval, clamp01_one.
  pose proof (inject_Z_pos t Htpos) as HtQ.
  pose proof (inject_Z_nonneg a Hapos) as HaQ.
  pose proof (inject_Z_nonneg o Hopos) as HoQ.
  destruct (ratio_range (inject_Z a) (inject_Z t + inject_Z a)) as [Hx0 Hx1];
    [done|lra|].
  pose proof (div_mul_cancel (inject_Z a) (inject_Z t + inject_Z a)
                ltac:(lra)) as Hx.
  pose proof (div_mul_cancel (inject_Z o) (inject_Z t) ltac:(lra)) as Hy.
  assert (0 <= inject_Z o / inject_Z t)%Q as Hy0
    by (apply Qle_shift_div_l; lra).
  revert Hx0 Hx1 Hx Hy Hy0.
  generalize (inject_Z a / (inject_Z t + inject_Z a))%Q.
  generalize (inject_Z o / inject_Z t)%Q. intros y x Hx0 Hx1 Hx Hy Hy0.
  split.
  - intros Hone.
    assert (0 <= (1 - x) * y)%Q as Hp by (apply Qmult_le_0_compat; lra).
    assert ((1 - 0.5 * x) * (1 - 0.3 * y)
            == 1 - 0.5 * x - 0.15 * y - 0.15 * ((1 - x) * y))%Q as Heq by ring.
    rewrite Heq in Hone.
    assert (x == 0)%Q as Hx00 by lra. assert (y == 0)%Q as Hy00 by lra.
    rewrite Hx00 in Hx. rewrite Hy00 in Hy.
    split; apply inject_Z_eq0; lra.
  - intros [-> ->].
    change (inject_Z 0) with 0%Q in Hx, Hy.
    assert (x == 0)%Q as ->.
    { destruct (Qmult_integral _ _ Hx) as [|Hz]; [done|lra]. }
    assert (y == 0)%Q as ->.
    { destruct (Qmult_integral _ _ Hy) as [|Hz]; [done|lra]. }
    lra.
Qed.

(** X2. "Lower confidence if high artifact ratio": with the other counts
    fixed, raising [artifacts_count] never raises the confidence. *)
Theorem confidence_antitone_artifacts (d : gmap string pyval)
    (t a a' o : Z) :
  d !! "total_count" = Some (VInt t) ->
  d !! "artifacts_count" = Some (VInt a) ->
  d !! "overlapped_count" = Some (VInt o) ->
  (0 <= t)%Z -> (0 <= a)%Z -> (a <= a')%Z ->
  exists c c',
    _calculate_confidence d = ([], Ok c) /\
    _calculate_confidence (<["artifacts_count" := VInt a']> d)
      = ([], Ok c') /\
    (c' <= c)%Q.
Proof.
  intros Ht Ha Ho Htpos Hapos Haa.
  assert (<["artifacts_count" := VInt a']> d !! "total_count"
          = Some (VInt t)) as Ht' by (by simplify_map_eq).
  assert (<["artifacts_count" := VInt a']> d !! "artifacts_count"
          = Some (VInt a')) as Ha' by (by simplify_map_eq).
  assert (<["artifacts_count" := VInt a']> d !! "overlapped_count"
          = Some (VInt o)) as Ho' by (by simplify_map_eq).
  destruct (decide (t = 0%Z)) as [->|Hne].
  { exists 0%Q, 0%Q. split; [by eapply confidence_zero|].
    split; [by eapply confidence_zero|lra]. }
  destruct (confidence_at d t a o Ht Ha Ho ltac:(lia) Hapos)
    as (c & Hc & Hval).
  destruct (confidence_at _ t a' o Ht' Ha' Ho' ltac:(lia) ltac:(lia))
    as (c' & Hc' & Hval').
  exists c, c'. split; [done|]. split; [done|]. rewrite Hval, Hval'.
  pose proof (inject_Z_pos t ltac:(lia)) as HtQ.
  pose proof (inject_Z_nonneg a Hapos) as HaQ.
  pose proof (inject_Z_le a a' Haa) as HaaQ.
  pose proof (ratio_mono _ _ _ HtQ HaQ HaaQ) as Hx.
  destruct (ratio_range (inject_Z a') (inject_Z t + inject_Z a'));
    [lra|lra|].
  apply product_mono; lra.
Qed.

(** X3. "Lower confidence if high overlap ratio": with the other counts
    fixed, raising [overlapped_count] never raises the confidence. *)
Theorem confidence_antitone_overlapped (d : gmap string pyval)
    (t a o o' : Z) :
  d !! "total_count" = Some (VInt t) ->
  d !! "artifacts_count" = Some (VInt a) ->
  d !! "overlapped_count" = Some (VInt o) ->
  (0 <= t)%Z -> (0 <= a)%Z -> (o <= o')%Z ->
  exists c c',
    _calculate_confidence d = ([], Ok c) /\
    _calculate_confidence (<["overlapped_count" := VInt o']> d)
      = ([], Ok c') /\
    (c' <= c)%Q.
Proof.
  intros Ht Ha Ho Htpos Hapos Hoo.
  assert (<["overlapped_count" := VInt o']> d !! "total_count"
          = Some (VInt t)) as Ht' by (by simplify_map_eq).
  assert (<["overlapped_count" := VInt o']> d !! "artifacts_count"
          = Some (VInt a)) as Ha' by (by simplify_map_eq).
  assert (<["overlapped_count" := VInt o']> d !! "overlapped_count"
          = Some (VInt o')) as Ho' by (by simplify_map_eq).
  destruct (decide (t = 0%Z)) as [->|Hne].
  { exists 0%Q, 0%Q. split; [by eapply confidence_zero|].
    split; [by eapply confidence_zero|lra]. }
  destruct (confidence_at d t a o Ht Ha Ho ltac:(lia) Hapos)
    as (c & Hc & Hval).
  destruct (confidence_at _ t a o' Ht' Ha' Ho' ltac:(lia) Hapos)
    as (c' & Hc' & Hval').
  exists c, c'. split; [done|]. split; [done|]. rewrite Hval, Hval'.
  pose proof (inject_Z_pos t ltac:(lia)) as HtQ.
  pose proof (inject_Z_nonneg a Hapos) as HaQ.
  pose proof (inject_Z_le o o' Hoo) as HooQ.
  pose proof (overlap_ratio_mono _ _ _ HtQ HooQ) as Hy.
  destruct (ratio_range (inject_Z a) (inject_Z t + inject_Z a));
    [lra|lra|].
  apply product_mono; lra.
Qed.

(** X4. What [_calculate_confidence] raises.  [total_count] and
    [artifacts_count] are read before the test for an empty count, so a
    dictionary without either raises [KeyError] even when the count is 0;
    [overlapped_count] is only read for a non-zero total; and a non-zero
    total that cancels against [artifacts_count] divides by zero. *)
Theorem confidence_errors (d : gmap string pyval) :
  (d !! "total_count" = None ->
   _calculate_confidence d = ([], Raise (KeyError "total_count"))) /\
  (forall t, d !! "total_count" = Some (VInt t) ->
             d !! "artifacts_count" = None ->
   _calculate_confidence d = ([], Raise (KeyError "artifacts_count"))) /\
  (forall a, d !! "total_count" = Some (VInt 0) ->
             d !! "artifacts_count" = Some (VInt a) ->
             d !! "overlapped_count" = None ->
   _calculate_confidence d = ([], Ok 0%Q)) /\
  (forall t a, d !! "total_count" = Some (VInt t) ->
               d !! "artifacts_count" = Some (VInt a) ->
               d !! "overlapped_count" = None ->
               t <> 0%Z -> (t + a)%Z <> 0%Z ->
   _calculate_confidence d = ([], Raise (KeyError "overlapped_count"))) /\
  (forall t a, d !! "total_count" = Some (VInt t) ->
               d !! "artifacts_count" = Some (VInt a) ->
               t <> 0%Z -> (t + a)%Z = 0%Z ->
   _calculate_confidence d = ([], Raise ZeroDivisionError)).
Proof.
  unfold _calculate_confidence, getitem.
  split; [|split; [|split; [|split]]].
  - by intros ->.
  - by intros t -> ->.
  - by intros a -> ->.
  - intros t a -> -> -> Ht Hta.
    unfold mret, M_ret, ret, num. rewrite !bind_pure. unfold ret.
    rewrite !bind_pure.
    destruct (Qeq_bool (inject_Z t) 0) eqn:E; qbool;
      [by apply inject_Z_eq0 in E|].
    unfold truediv.
    destruct (Qeq_bool (inject_Z t + inject_Z a) 0) eqn:E1; qbool.
    { exfalso. apply Hta. rewrite <- inject_Z_plus in E1.
      by apply inject_Z_eq0. }
    unfold ret. by rewrite bind_pure.
  - intros t a -> -> Ht Hta.
    unfold mret, M_ret, ret, num. rewrite !bind_pure. unfold ret.
    rewrite !bind_pure.
    destruct (Qeq_bool (inject_Z t) 0) eqn:E; qbool;
      [by apply inject_Z_eq0 in E|].
    unfold truediv.
    destruct (Qeq_bool (inject_Z t + inject_Z a) 0) eqn:E1; qbool; [done|].
    exfalso. apply E1. rewrite <- inject_Z_plus, Hta. reflexivity.
Qed.

(** ** How many contours can be tagged *)

Lemma filter_length_perm (f : Q -> bool) (l l' : list Q) :
  l ≡ₚ l' -> length (List.filter f l) = length (List.filter f l').
Proof.
  induction 1 as [|x l l' _ IH|x y l|l l' l'' _ IH1 _ IH2]; simpl.
  - done.
  - destruct (f x); simpl; lia.
  - destruct (f x), (f y); simpl; lia.
  - lia.
Qed.

Lemma filter_length_impl (f g : Q -> bool) (l : list Q) :
  (forall a, f a = true -> g a = true) ->
  (length (List.filter f l) <= length (List.filter g l))%nat.
Proof.
  intros Hfg. induction l as [|a l IH]; simpl; [lia|].
  destruct (f a) eqn:Ef.
  - rewrite (Hfg a Ef). simpl. lia.
  - destruct (g a); simpl; lia.
Qed.

Lemma filter_length_le (f : Q -> bool) (l : list Q) :
  (length (List.filter f l) <= length l)%nat.
Proof. induction l as [|a l IH]; simpl; [lia|]. destruct (f a); simpl; lia. Qed.

Lemma sorted_head_le (x : Q) (s : list Q) :
  Sorted Qle (x :: s) -> Forall (fun y => x <= y)%Q s.
Proof.
  intros Hs. apply Sorted_StronglySorted in Hs.
  - by inversion Hs.
  - intros a b c. apply Qle_trans.
Qed.

(** In a sorted list, at most the elements after position [k] exceed a
    bound on the element at [k]. *)
Lemma count_above_sorted (s : list Q) :
  Sorted Qle s -> forall (k : nat) (m : Q),
  (k < length s)%nat -> (nth k s 0 <= m)%Q ->
  (length (List.filter (fun a => Qlt_bool m a) s) + (k + 1) <= length s)%nat.
Proof.
  induction s as [|x s IH]; intros Hs k m Hk Hm; [simpl in Hk; lia|].
  pose proof (sorted_head_le x s Hs) as Hx.
  assert (Sorted Qle s) as Hs' by (by inversion Hs).
  assert (x <= m)%Q as Hxm.
  { destruct k as [|k]; [done|]. simpl in Hm, Hk.
    assert (x <= nth k s 0)%Q; [|lra].
    apply (nth_Forall (fun y => x <= y)%Q); [done|lia]. }
  cbn [List.filter]. apply Qlt_bool_false in Hxm. rewrite Hxm.
  destruct k as [|k]; simpl.
  - pose proof (filter_length_le (fun a => Qlt_bool m a) s). lia.
  - simpl in Hm, Hk. specialize (IH Hs' k m ltac:(lia) Hm). lia.
Qed.

(** And at most the elements before position [k] lie below a lower bound
    of the element at [k]. *)
Lemma count_below_sorted (s : list Q) :
  Sorted Qle s -> forall (k : nat) (m : Q),
  (k < length s)%nat -> (m <= nth k s 0)%Q ->
  (length (List.filter (fun a => Qlt_bool a m) s) <= k)%nat.
Proof.
  induction s as [|x s IH]; intros Hs k m Hk Hm; [simpl in Hk; lia|].
  pose proof (sorted_head_le x s Hs) as Hx.
  assert (Sorted Qle s) as Hs' by (by inversion Hs).
  cbn [List.filter]. destruct k as [|k].
  - simpl in Hm. apply Qlt_bool_false in Hm. rewrite Hm.
    assert (List.filter (fun a => Qlt_bool a m) s = []) as ->; [|done].
    apply Qlt_bool_false in Hm. clear -Hx Hm.
    induction Hx as [|y s Hy _ IH]; [done|]. simpl.
    assert (Qlt_bool y m = false) as -> by (apply Qlt_bool_false; lra).
    done.
  - simpl in Hm, Hk. specialize (IH Hs' k m ltac:(lia) Hm).
    destruct (Qlt_bool x m); simpl; lia.
Qed.

Lemma sorted_nth_le (s : list Q) (i j : nat) :
  Sorted Qle s -> (i <= j)%nat -> (j < length s)%nat ->
  (nth i s 0 <= nth j s 0)%Q.
Proof.
  intros Hs. revert i j. induction s as [|x s IH]; intros i j Hij Hj;
    [simpl in Hj; lia|].
  pose proof (sorted_head_le x s Hs) as Hx.
  assert (Sorted Qle s) as Hs' by (by inversion Hs).
  destruct i as [|i], j as [|j]; simpl in *; try lia.
  - lra.
  - apply (nth_Forall (fun y => x <= y)%Q); [done|lia].
  - apply IH; [done|lia|lia].
Qed.

(** The median splits the data: at most half of it is strictly above, at
    most half strictly below. *)
Lemma median_splits (l : list Q) :
  l <> [] ->
  (2 * length (List.filter (fun a => Qlt_bool (np_median l) a) l)
     <= length l)%nat /\
  (2 * length (List.filter (fun a => Qlt_bool a (np_median l)) l)
     <= length l)%nat.
Proof.
  intros Hne.
  assert (0 < length l)%nat as Hn by (destruct l; [done|simpl; lia]).
  rewrite !(filter_length_perm _ l (np_sort l)) by (by rewrite np_sort_perm).
  pose proof (np_sort_sorted l) as Hs.
  pose proof (np_sort_length l) as Hlen.
  pose proof (Nat.div_mod_eq (length l) 2) as Hdiv.
  pose proof (Nat.mod_upper_bound (length l) 2 ltac:(lia)) as Hmod.
  unfold np_median.
  set (s := np_sort l) in *. set (k := (length l / 2)%nat) in *.
  destruct (Nat.even (length l)) eqn:E.
  - (* even *)
    apply Nat.even_spec in E as [q Hq].
    assert (0 < k)%nat as Hk by lia.
    pose proof (sorted_nth_le s (k - 1) k Hs ltac:(lia) ltac:(lia)) as Hle.
    set (m := ((nth (k - 1) s 0 + nth k s 0) / 2)%Q).
    assert (nth (k - 1) s 0 <= m /\ m <= nth k s 0)%Q as [Hlo Hhi].
    { unfold m. split; [apply Qle_shift_div_l|apply Qle_shift_div_r]; lra. }
    pose proof (count_above_sorted s Hs (k - 1) m ltac:(lia) Hlo).
    pose proof (count_below_sorted s Hs k m ltac:(lia) Hhi).
    lia.
  - (* odd *)
    rewrite <- Nat.negb_odd in E. apply negb_false_iff in E.
    apply Nat.odd_spec in E as [q Hq].
    pose proof (count_above_sorted s Hs k (nth k s 0%Q) ltac:(lia)
                  ltac:(lra)).
    pose proof (count_below_sorted s Hs k (nth k s 0%Q) ltac:(lia)
                  ltac:(lra)).
    lia.
Qed.

Lemma tag_Overlapped_above (m a : Q) :
  Classification_eqb (tag m a) Overlapped = true -> Qlt_bool m a = true.
Proof.
  unfold tag. repeat case_match; try done. intros _. qbool.
  apply Qlt_bool_iff. lra.
Qed.

Lemma tag_low_below (m a : Q) :
  (0 <= a)%Q ->
  Classification_eqb (tag m a) Artifact
  || Classification_eqb (tag m a) Partial = true ->
  Qlt_bool a m = true.
Proof.
  intros Ha. unfold tag. repeat case_match; try done; intros _; qbool;
    apply Qlt_bool_iff; lra.
Qed.

Lemma tagged_low_sum (m : Q) (areas : list Q) :
  (tagged Artifact m areas + tagged Partial m areas)%Z =
  len (List.filter (fun a => Classification_eqb (tag m a) Artifact
                             || Classification_eqb (tag m a) Partial) areas).
Proof.
  induction areas as [|a areas IH]; [done|].
  rewrite !tagged_cons. unfold len in *. cbn [List.filter].
  destruct (tag m a); simpl; lia.
Qed.

Lemma filter_length_impl_in (f g : Q -> bool) (l : list Q) :
  (forall a, a ∈ l -> f a = true -> g a = true) ->
  (length (List.filter f l) <= length (List.filter g l))%nat.
Proof.
  induction l as [|a l IH]; intros Hfg; simpl; [lia|].
  assert (length (List.filter f l) <= length (List.filter g l))%nat as IH'.
  { apply IH. intros b Hb. apply Hfg. by right. }
  destruct (f a) eqn:Ef.
  - rewrite (Hfg a ltac:(left) Ef). simpl. lia.
  - destruct (g a); simpl; lia.
Qed.

Section Halves.
Context `{Vision}.

Lemma tagged_halves (cs : list contour) :
  cs <> [] ->
  let areas := map contourArea cs in
  let m := np_median areas in
  (2 * tagged Overlapped m areas <= len cs)%Z /\
  (2 * (tagged Artifact m areas + tagged Partial m areas) <= len cs)%Z.
Proof.
  intros Hne areas m.
  assert (areas <> []) as Hne' by (by destruct cs).
  destruct (median_splits areas Hne') as [Hup Hdown]. fold m in Hup, Hdown.
  assert (length areas = length cs) as Hlen by (apply length_map).
  split.
  - pose proof (filter_length_impl
      (fun a => Classification_eqb (tag m a) Overlapped)
      (fun a => Qlt_bool m a) areas (tag_Overlapped_above m)).
    unfold tagged, len. lia.
  - rewrite tagged_low_sum.
    pose proof (filter_length_impl_in
      (fun a => Classification_eqb (tag m a) Artifact
                || Classification_eqb (tag m a) Partial)
      (fun a => Qlt_bool a m) areas) as Hlow.
    assert (length (List.filter
              (fun a => Classification_eqb (tag m a) Artifact
                        || Classification_eqb (tag m a) Partial) areas)
            <= length (List.filter (fun a => Qlt_bool a m) areas))%nat
      as Hle.
    { apply Hlow. intros a Ha. apply tag_low_below.
      apply list_elem_of_In, in_map_iff in Ha as (c & <- & _).
      apply contourArea_nonneg. }
    unfold len. lia.
Qed.

(** X5. At most half of the contours are counted as overlapped, and at
    most half as artifact or partial: the first lie strictly above the
    median area, the others strictly below. *)
Theorem tagged_at_most_half (self : SilkyNetInference) (mask : grid Z)
    (threshold : Z) :
  exists d cs ov art par,
    result (count_contours self mask threshold) = Ok d /\
    d !! "contours" = Some (VContours cs) /\
    d !! "overlapped_count" = Some (VInt ov) /\
    d !! "artifacts_count" = Some (VInt art) /\
    d !! "partial_count" = Some (VInt par) /\
    (2 * ov <= len cs)%Z /\ (2 * (art + par) <= len cs)%Z.
Proof.
  destruct (decide (findContours (binarize mask threshold) = []))
    as [Hcs|Hcs].
  - rewrite (count_contours_empty self mask threshold Hcs).
    destruct (empty_result_lookup []) as (?&?&?&?&?&?&?&?).
    exists (empty_result []), [], 0%Z, 0%Z, 0%Z. by repeat split.
  - destruct (count_contours_nonempty self mask threshold Hcs)
      as (add & _ & _ & ->).
    set (cs := findContours (binarize mask threshold)) in *.
    set (m := np_median (map contourArea cs)).
    set (st := Tally _ _ _ _).
    destruct (full_result_lookup cs m st add) as (_&_&Ho&_&Hp&Ha&Hc&_).
    destruct (tagged_halves cs Hcs) as [Hup Hlow].
    by exists (full_result cs m st add), cs, (overlapped st), (artifacts st),
      (partial st).
Qed.

(** X6. When all contours have the same area, whatever it is, none is
    tagged: the artifact, partial, overlapped and additional counts are 0,
    [total_count] is the number of contours and the confidence is 1.0. *)
Theorem uniform_area_contours (self : SilkyNetInference) (mask : grid Z)
    (threshold : Z) (area : Q) :
  let cs := findContours (binarize mask threshold) in
  cs <> [] ->
  (forall c, c ∈ cs -> contourArea c == area)%Q ->
  exists d c,
    count_contours self mask threshold = ([], Ok d) /\
    d !! "artifacts_count" = Some (VInt 0) /\
    d !! "partial_count" = Some (VInt 0) /\
    d !! "overlapped_count" = Some (VInt 0) /\
    d !! "additional_separated" = Some (VInt 0) /\
    d !! "individual_count" = Some (VInt (len cs)) /\
    d !! "total_count" = Some (VInt (len cs)) /\
    _calculate_confidence d = ([], Ok c) /\ (c == 1)%Q.
Proof.
  intros cs Hne Hsame.
  set (m := np_median (map contourArea cs)).
  assert (0 <= area)%Q as Harea.
  { destruct cs as [|c0 cs'] eqn:E; [done|].
    rewrite <- (Hsame c0) by left. apply contourArea_nonneg. }
  assert (m == area)%Q as Hm.
  { destruct (np_median_bounds area area (map contourArea cs)) as [? ?].
    - by destruct cs.
    - apply List.Forall_forall. intros a (c & <- & Hc)%in_map_iff.
      rewrite (Hsame c) by (by apply list_elem_of_In). lra.
    - fold m in H0, H1. lra. }
  assert (forall c, c ∈ cs -> tag m (contourArea c) = Untagged) as Htag.
  { intros c Hc. pose proof (Hsame c Hc) as Ha.
    apply tag_Untagged; lra. }
  assert (Forall (fun a => tag m a = Untagged) (map contourArea cs)) as Hall.
  { apply List.Forall_forall. intros a (c & <- & Hc)%in_map_iff.
    by apply Htag, list_elem_of_In. }
  assert (overlapped_of m cs = []) as Hov.
  { apply overlapped_of_none. intros c Hc. by rewrite Htag. }
  destruct (count_contours_nonempty self mask threshold Hne)
    as (add & Hadd & _ & ->).
  fold cs m in Hadd |- *. rewrite Hov in Hadd |- *.
  simpl in Hadd. injection Hadd as <-.
  rewrite !(tagged_Forall _ Untagged m _ Hall). simpl Classification_eqb.
  cbv iota.
  destruct (full_result_lookup cs m (Tally 0 0 0 []) 0)
    as (Htot & Hind & Ho & ? & ? & Ha & _ & _).
  cbn [artifacts partial overlapped] in Htot, Hind, Ho, Ha.
  replace (len cs - 0 - 0 + 0 + 0)%Z with (len cs) in Htot by lia.
  replace (len cs - 0 - 0)%Z with (len cs) in Hind by lia.
  assert (0 < len cs)%Z as Hpos.
  { unfold len. destruct cs; [done|]. simpl. lia. }
  destruct (confidence_at _ _ _ _ Htot Ha Ho Hpos ltac:(lia))
    as (c & Hc & Hval).
  eexists _, c. repeat split; try done.
  rewrite Hval. change (inject_Z 0) with 0%Q.
  assert ((1 - 0.5 * (0 / (inject_Z (len cs) + 0)))
          * (1 - 0.3 * (0 / inject_Z (len cs))) == 1)%Q as ->.
  { unfold Qdiv. ring. }
  reflexivity.
Qed.

End Halves.

(** ** The threshold of [count_contours] *)

Lemma gmap2_ext_in {A B} (f g : A -> B) (P : A -> Prop) (m : grid A) :
  Forall (Forall P) m -> (forall v, P v -> f v = g v) ->
  gmap2 f m = gmap2 g m.
Proof.
  intros Hm Hfg. unfold gmap2.
  induction Hm as [|row m Hrow _ IH]; [done|]. simpl. f_equal; [|done].
  induction Hrow as [|v row Hv _ IHr]; [done|]. simpl. f_equal; auto.
Qed.

Lemma gmap2_compose {A B C} (f : A -> B) (g : B -> C) (m : grid A) :
  gmap2 g (gmap2 f m) = gmap2 (fun v => g (f v)) m.
Proof.
  unfold gmap2. rewrite map_map. apply map_ext. intros row.
  by rewrite map_map.
Qed.

Lemma binarize_binary (mask : grid Z) (threshold : Z) :
  binary_mask mask -> (0 <= threshold < 255)%Z ->
  binarize mask threshold = gmap2 (Z.mul 255) mask.
Proof.
  intros Hm Ht. unfold binarize. rewrite gmap2_compose.
  apply (gmap2_ext_in _ _ _ mask Hm). intros v [-> | ->]; cbv beta.
  - change ((0 * 255) `mod` 256)%Z with 0%Z.
    destruct (Z.ltb_spec threshold 0); [lia|done].
  - change ((1 * 255) `mod` 256)%Z with 255%Z.
    destruct (Z.ltb_spec threshold 255); [done|lia].
Qed.

Lemma count_contours_binarize `{Vision} (self : SilkyNetInference)
    (mask : grid Z) (t1 t2 : Z) :
  binarize mask t1 = binarize mask t2 ->
  count_contours self mask t1 = count_contours self mask t2.
Proof.
  intros Hb. unfold count_contours. cbv zeta.
  fold (binarize mask t1). fold (binarize mask t2). by rewrite Hb.
Qed.

(** X7. On a mask of zeros and ones -- what [segment] returns -- the
    thresholded image is 255 times the mask for every threshold from 0 to
    254: within that range the [threshold] argument has no effect on the
    result of [count_contours]. *)
Theorem threshold_inert `{Vision} (self : SilkyNetInference)
    (mask : grid Z) (t1 t2 : Z) :
  binary_mask mask -> (0 <= t1 < 255)%Z -> (0 <= t2 < 255)%Z ->
  binarize mask t1 = gmap2 (Z.mul 255) mask /\
  count_contours self mask t1 = count_contours self mask t2.
Proof.
  intros Hm H1 H2. split; [by apply binarize_binary|].
  apply count_contours_binarize. by rewrite !binarize_binary.
Qed.


(** ** [segment] *)

Lemma result_mapM {A B} (f : A -> M B) (l : list A) (l' : list B) :
  result (mapM f l) = Ok l' -> Forall2 (fun x y => result (f x) = Ok y) l l'.
Proof.
  revert l'. induction l as [|x l IH]; intros l'; simpl.
  - intros [= <-]. constructor.
  - rewrite result_bind. destruct (result (f x)) as [y|e] eqn:Hx; [|done].
    rewrite result_bind. destruct (result (mapM f l)) as [k|e] eqn:Hl; [|done].
    intros [= <-]. constructor; [done|]. by apply IH.
Qed.

Lemma result_index {A} (l : list A) (i : nat) (x : A) :
  result (index l i) = Ok x <-> l !! i = Some x.
Proof.
  unfold index. destruct (l !! i); simpl; split; congruence.
Qed.

Lemma channel_row (row : list (list Q)) (prow : list Q) :
  Forall2 (fun px p => result (index px 0) = Ok p) row prow ->
  Forall2 above_half row
          (map (fun p : Q => if Qlt_bool 0.5 p then 1%Z else 0%Z) prow).
Proof.
  induction 1 as [|px p row prow Hpx _ IH]; simpl; constructor; [|done].
  apply result_index in Hpx. by exists p.
Qed.

Lemma channel_mask (img : grid (list Q)) (probs : grid Q) :
  Forall2 (fun row prow =>
             result (mapM (fun px : list Q => index px 0) row) = Ok prow)
          img probs ->
  Forall2 (Forall2 above_half) img
          (gmap2 (fun p : Q => if Qlt_bool 0.5 p then 1%Z else 0%Z) probs).
Proof.
  induction 1 as [|row prow img probs Hrow _ IH]; simpl; constructor; [|done].
  by apply channel_row, result_mapM.
Qed.

Lemma channel_mask_binary (img : grid (list Q)) (mask : grid Z) :
  Forall2 (Forall2 above_half) img mask -> binary_mask mask.
Proof.
  unfold binary_mask.
  induction 1 as [|row mrow img mask Hrow _ IH]; constructor; [|done].
  induction Hrow as [|px v row mrow (p & _ & ->) _ IHr]; constructor; [|done].
  destruct (Qlt_bool 0.5 p); auto.
Qed.

Section Segment.
Context `{Vision}.

(** X9. When [segment] returns, the network answered with a batch whose
    first element has the shape of the mask, and each pixel of the mask is
    1 where the first channel of the network is above 0.5 and 0 elsewhere:
    the mask holds nothing but zeros and ones. *)
Theorem segment_mask (self : SilkyNetInference) (image : rgb)
    (mask : grid Z) :
  result (segment self image) = Ok mask ->
  exists out first,
    model_predict (preprocess_image self image) = Ok out /\
    out !! 0%nat = Some first /\
    Forall2 (Forall2 above_half) first mask /\
    binary_mask mask.
Proof.
  unfold segment. cbv zeta. rewrite result_libcall.
  destruct (model_predict (preprocess_image self image)) as [out|e] eqn:Hout;
    [|done].
  rewrite result_bind.
  match goal with
  | |- context [match ?r with _ => _ end] =>
      destruct r as [first|e] eqn:Hfirst; [|done]
  end.
  apply result_index in Hfirst. rewrite result_bind.
  match goal with
  | |- context [match ?r with _ => _ end] =>
      destruct r as [probs|e] eqn:Hprobs; [|done]
  end.
  intros [= <-]. exists out, first. split; [done|]. split; [done|].
  apply result_mapM in Hprobs.
  pose proof (channel_mask _ _ Hprobs) as Hshape.
  split; [done|]. by eapply channel_mask_binary.
Qed.

End Segment.

(** ** [predict] *)

Section Predict.
Context `{Vision}.

(** The two dictionaries [count_contours] can return, the confidence
    computed from them and its range. *)
Lemma count_contours_forms (self : SilkyNetInference) (mask : grid Z)
    (threshold : Z) :
  exists d cs c,
    result (count_contours self mask threshold) = Ok d /\
    (d = empty_result cs \/ exists m st add, d = full_result cs m st add) /\
    d !! "contours" = Some (VContours cs) /\
    _calculate_confidence d = ([], Ok c) /\ (0 <= c /\ c <= 1)%Q.
Proof.
  destruct (decide (findContours (binarize mask threshold) = []))
    as [Hcs|Hcs].
  - rewrite (count_contours_empty self mask threshold Hcs).
    destruct (empty_result_lookup []) as (?&?&?&?&?&?&?&?).
    exists (empty_result []), [], 0%Q. repeat split; try done; try lra.
    by left.
  - destruct (count_contours_nonempty self mask threshold Hcs)
      as (add & _ & Hadd & ->).
    set (cs := findContours (binarize mask threshold)).
    set (m := np_median (map contourArea cs)).
    set (st := Tally _ _ _ _).
    destruct (full_result_lookup cs m st add) as (Ht&_&Ho&_&_&Ha&Hc&_).
    pose proof (tagged_total m (map contourArea cs)) as Htot.
    pose proof (tagged_nonneg Artifact m (map contourArea cs)).
    pose proof (tagged_nonneg Partial m (map contourArea cs)).
    pose proof (tagged_nonneg Untagged m (map contourArea cs)).
    assert (len (map contourArea cs) = len cs) as Hlen.
    { unfold len. by rewrite length_map. }
    destruct (confidence_value _ _ _ _ Ht Ha Ho) as (c & Hconf & Hspec);
      [simpl; lia|simpl; lia|].
    exists (full_result cs m st add), cs, c. repeat split; try done.
    + right. by exists m, st, add.
    + rewrite Hspec. unfold spec_confidence. case_match; [lra|].
      apply clamp01_range.
    + rewrite Hspec. unfold spec_confidence. case_match; [lra|].
      apply clamp01_range.
Qed.

Lemma count_keys_fresh (d : gmap string pyval) (cs : list contour) :
  (d = empty_result cs \/ exists m st add, d = full_result cs m st add) ->
  d !! "mask" = None /\ d !! "visualization" = None /\
  d !! "confidence" = None.
Proof.
  intros [->|(m & st & add & ->)]; unfold empty_result, full_result;
    cbv zeta; repeat split; by simplify_map_eq.
Qed.

Lemma result_contours (d : gmap string pyval) (cs : list contour) :
  d !! "contours" = Some (VContours cs) ->
  getitem d "contours" ≫= as_contours = ([], Ok cs).
Proof.
  intros Hcs. unfold getitem. rewrite Hcs. unfold ret. by rewrite bind_pure.
Qed.

(** How [predict] ends, by the outcomes of its steps. *)
Lemma predict_outcome (self : SilkyNetInference) (image : rgb) :
  match result (segment self image) with
  | Raise e => result (predict self image) = Raise e
  | Ok mask =>
      exists dc cs c,
        result (count_contours self mask default_threshold) = Ok dc /\
        (dc = empty_result cs \/
         exists m st add, dc = full_result cs m st add) /\
        dc !! "contours" = Some (VContours cs) /\
        _calculate_confidence dc = ([], Ok c) /\ (0 <= c /\ c <= 1)%Q /\
        match result (create_visualization self image mask cs) with
        | Raise e => result (predict self image) = Raise e
        | Ok viz =>
            result (predict self image) =
            Ok (dc ∪ (<["mask" := VMask mask]>
                     (<["visualization" := VImage viz]>
                     (<["confidence" := VFloat c]> ∅))))
        end
  end.
Proof.
  unfold predict. rewrite result_bind.
  destruct (result (segment self image)) as [mask|e] eqn:Hseg; [|done].
  destruct (count_contours_forms self mask default_threshold)
    as (dc & cs & c & Hdc & Hform & Hcs & Hc & Hrange).
  exists dc, cs, c. repeat split; try done; try apply Hrange.
  rewrite result_bind, Hdc, result_bind, (result_contours _ _ Hcs).
  cbn [result snd]. rewrite result_bind.
  destruct (result (create_visualization self image mask cs)) as [viz|e]
    eqn:Hviz; [|done].
  by rewrite result_bind, Hc.
Qed.

(** X10. When [predict] returns, its dictionary holds the mask of
    [segment], the overlay, the confidence computed from the counting
    result -- a number between 0 and 1 -- and every entry of the counting
    result unchanged: the three keys [predict] adds are not among those of
    [count_contours], so spreading the counting result over them
    overwrites nothing. *)
Theorem predict_result (self : SilkyNetInference) (image : rgb)
    (d : gmap string pyval) :
  result (predict self image) = Ok d ->
  exists mask dc cs viz c,
    result (segment self image) = Ok mask /\
    result (count_contours self mask default_threshold) = Ok dc /\
    dc !! "contours" = Some (VContours cs) /\
    result (create_visualization self image mask cs) = Ok viz /\
    _calculate_confidence dc = ([], Ok c) /\
    (0 <= c /\ c <= 1)%Q /\
    d !! "mask" = Some (VMask mask) /\
    d !! "visualization" = Some (VImage viz) /\
    d !! "confidence" = Some (VFloat c) /\
    (forall k v, dc !! k = Some v -> d !! k = Some v) /\
    (forall k, k <> "mask" -> k <> "visualization" -> k <> "confidence" ->
               d !! k = dc !! k).
Proof.
  intros Hd. pose proof (predict_outcome self image) as Hout.
  destruct (result (segment self image)) as [mask|e] eqn:Hseg; [|congruence].
  destruct Hout as (dc & cs & c & Hdc & Hform & Hcs & Hc & Hrange & Hout).
  destruct (result (create_visualization self image mask cs)) as [viz|e]
    eqn:Hviz; [|congruence].
  rewrite Hd in Hout. injection Hout as ->.
  destruct (count_keys_fresh dc cs Hform) as (Hm & Hv & Hcf).
  exists mask, dc, cs, viz, c.
  split; [done|]. split; [done|]. split; [done|]. split; [done|].
  split; [done|]. split; [done|].
  split; [rewrite lookup_union_r by done; by simplify_map_eq|].
  split; [rewrite lookup_union_r by done; by simplify_map_eq|].
  split; [rewrite lookup_union_r by done; by simplify_map_eq|].
  split.
  - intros k v Hk. by apply lookup_union_Some_l.
  - intros k H1 H2 H3. destruct (dc !! k) as [v|] eqn:Hk.
    + by apply lookup_union_Some_l.
    + rewrite lookup_union_r by done. by simplify_map_eq.
Qed.

(** X11. [predict] raises exactly when the network call of [segment]
    fails -- or returns a batch [segment] cannot index -- or when the
    overlay cannot be drawn on the counted contours; the exception is
    passed on unchanged.  Counting and the confidence never make it
    fail. *)
Theorem predict_raises_iff (self : SilkyNetInference) (image : rgb)
    (e : exn) :
  result (predict self image) = Raise e <->
  result (segment self image) = Raise e \/
  exists mask dc cs,
    result (segment self image) = Ok mask /\
    result (count_contours self mask default_threshold) = Ok dc /\
    dc !! "contours" = Some (VContours cs) /\
    result (create_visualization self image mask cs) = Raise e.
Proof.
  pose proof (predict_outcome self image) as Hout.
  destruct (result (segment self image)) as [mask|e1] eqn:Hseg.
  - destruct Hout as (dc & cs & c & Hdc & Hform & Hcs & Hc & Hrange & Hout).
    split.
    + intros He. right. exists mask, dc, cs. repeat split; try done.
      destruct (result (create_visualization self image mask cs));
        congruence.
    + intros [?|(mask' & dc' & cs' & [= <-] & Hdc' & Hcs' & Hviz)]; [done|].
      rewrite Hdc in Hdc'. injection Hdc' as <-.
      rewrite Hcs in Hcs'. injection Hcs' as <-.
      by rewrite Hviz in Hout.
  - rewrite Hout. split; [intros [= ->]; by left|].
    intros [[= ->]|(mask' & dc' & cs' & Heq & _)]; [done|discriminate].
Qed.

(** X12. The overlay is the only place where the size of the mask is
    looked at: when the mask of [segment] has not the shape of the resized
    image, [predict] ends with NumPy's [IndexError] for a mismatched boolean
    index -- after the counting has been done, and with no count
    returned. *)
Theorem predict_shape_mismatch (self : SilkyNetInference) (image : rgb)
    (mask : grid Z) :
  result (segment self image) = Ok mask ->
  shape (pil_resize image (img_size self)) <> shape mask ->
  result (predict self image)
  = Raise (IndexError "boolean index did not match indexed array").
Proof.
  intros Hseg Hshape. pose proof (predict_outcome self image) as Hout.
  rewrite Hseg in Hout.
  destruct Hout as (dc & cs & c & _ & _ & _ & _ & _ & Hout).
  by rewrite (visualization_shape_mismatch self image mask cs Hshape)
    in Hout.
Qed.

End Predict.

(** ** The tint of the overlay *)

Lemma Qfloor_blend (v k : Z) :
  Qfloor (inject_Z v * 0.6 + inject_Z k * 0.4) = ((3 * v + 2 * k) / 5)%Z.
Proof.
  unfold Qfloor, Qmult, Qplus, inject_Z. simpl Qnum. simpl Qden.
  rewrite <- (Z.div_mul_cancel_r (3 * v + 2 * k) 5 20) by lia.
  f_equal. lia.
Qed.

(** X13. The green tint stays within a byte: a pixel (r, g, b) with
    components from 0 to 255 becomes (3r/5, (3g + 510)/5, 3b/5), integer
    divisions, again with components from 0 to 255 -- nothing wraps when
    the blend is stored back into the uint8 image -- and red and blue
    never grow. *)
Theorem tint_uint8 (r g b : Z) :
  (0 <= r <= 255)%Z -> (0 <= g <= 255)%Z -> (0 <= b <= 255)%Z ->
  tint (r, g, b) = (3 * r / 5, (3 * g + 510) / 5, 3 * b / 5)%Z /\
  (0 <= 3 * r / 5 <= r)%Z /\
  (102 <= (3 * g + 510) / 5 <= 255)%Z /\
  (0 <= 3 * b / 5 <= b)%Z.
Proof.
  intros Hr Hg Hb. unfold tint.
  change 0%Q with (inject_Z 0). change 255%Q with (inject_Z 255).
  rewrite !Qfloor_blend.
  replace (3 * r + 2 * 0)%Z with (3 * r)%Z by lia.
  replace (3 * g + 2 * 255)%Z with (3 * g + 510)%Z by lia.
  replace (3 * b + 2 * 0)%Z with (3 * b)%Z by lia.
  split; [done|].
  pose proof (Z.div_le_lower_bound (3 * r) 5 0 ltac:(lia) ltac:(lia)).
  pose proof (Z.div_le_upper_bound (3 * r) 5 r ltac:(lia) ltac:(lia)).
  pose proof (Z.div_le_lower_bound (3 * b) 5 0 ltac:(lia) ltac:(lia)).
  pose proof (Z.div_le_upper_bound (3 * b) 5 b ltac:(lia) ltac:(lia)).
  pose proof (Z.div_le_lower_bound (3 * g + 510) 5 102 ltac:(lia)
                ltac:(lia)).
  pose proof (Z.div_le_upper_bound (3 * g + 510) 5 255 ltac:(lia)
                ltac:(lia)).
  lia.
Qed.

(** ** The marker array *)

Lemma np_zeros_bool_rectangular (sh : nat * nat) :
  rectangular (np_zeros_bool sh) sh.
Proof.
  unfold rectangular, np_zeros_bool. rewrite length_replicate.
  split; [done|]. apply Forall_replicate, length_replicate.
Qed.

Lemma np_zeros_bool_cell (sh : nat * nat) (r c : nat) :
  (r < fst sh)%nat -> (c < snd sh)%nat ->
  cell (np_zeros_bool sh) r c = Some false.
Proof.
  intros Hr Hc. unfold cell, np_zeros_bool, grid.
  rewrite lookup_replicate_2 by done.
  change (replicate (snd sh) false !! c = Some false).
  by rewrite lookup_replicate_2.
Qed.

Lemma set_cell_rectangular (a : grid bool) (sh : nat * nat) (r c : nat)
    (row : list bool) :
  rectangular a sh -> a !! r = Some row ->
  rectangular (<[r := <[c := true]> row]> a) sh.
Proof.
  unfold grid in *. intros [Hlen Hrows] Hrow.
  split; [by rewrite length_insert|].
  apply Forall_insert; [done|]. rewrite length_insert.
  by eapply Forall_lookup_1 in Hrows.
Qed.

Lemma set_cell_lookup (a : grid bool) (r c r' c' : nat) (row : list bool) :
  a !! r = Some row -> (c < length row)%nat ->
  cell (<[r := <[c := true]> row]> a) r' c' =
  if decide ((r', c') = (r, c)) then Some true else cell a r' c'.
Proof.
  unfold grid in *. intros Hrow Hc. unfold cell, grid.
  assert (r < length a)%nat as Hr by (by eapply lookup_lt_Some).
  destruct (decide (r' = r)) as [->|Hr'].
  - rewrite list_lookup_insert_eq by done. simpl. rewrite Hrow. simpl.
    destruct (decide (c' = c)) as [->|Hc'].
    + rewrite list_lookup_insert_eq by done. by rewrite decide_True.
    + rewrite list_lookup_insert_ne by done.
      rewrite decide_False by congruence. done.
  - rewrite list_lookup_insert_ne by done.
    rewrite decide_False by congruence. done.
Qed.

Lemma set_true_in_range (coords : list (nat * nat)) :
  forall (a : grid bool) (sh : nat * nat),
  rectangular a sh ->
  (forall r c, (r, c) ∈ coords -> (r < fst sh)%nat /\ (c < snd sh)%nat) ->
  exists g,
    set_true a coords = ([], Ok g) /\ rectangular g sh /\
    forall r c,
      cell g r c = if decide ((r, c) ∈ coords) then
                     (if decide (r < fst sh /\ c < snd sh)%nat
                      then Some true else cell a r c)
                   else cell a r c.
Proof.
  induction coords as [|[r0 c0] coords IH]; intros a sh Hrect Hin.
  { exists a. split; [done|]. split; [done|]. intros r c.
    rewrite decide_False; [done|]. apply not_elem_of_nil. }
  destruct (Hin r0 c0 ltac:(left)) as [Hr0 Hc0].
  destruct Hrect as [Hlen Hrows].
  destruct (lookup_lt_is_Some_2 a r0 ltac:(lia)) as [row Hrow].
  assert (length row = snd sh) as Hrowlen
    by (by eapply Forall_lookup_1 in Hrows).
  simpl. unfold grid in *. rewrite Hrow. rewrite decide_True by lia.
  destruct (IH (<[r0 := <[c0 := true]> row]> a) sh) as (g & Hg & Hgrect & Hcell).
  { by apply set_cell_rectangular. }
  { intros r c Hrc. apply Hin. by right. }
  exists g. split; [done|]. split; [done|]. intros r c.
  rewrite Hcell, set_cell_lookup by (done || lia).
  destruct (decide ((r, c) = (r0, c0))) as [[= -> ->]|Hne].
  - rewrite (decide_True (P := (r0, c0) ∈ (r0, c0) :: coords)) by left.
    rewrite !(decide_True (P := (r0 < fst sh ∧ c0 < snd sh)%nat)) by done.
    by destruct (decide _).
  - destruct (decide ((r, c) ∈ coords)) as [Hrc|Hrc].
    + by rewrite (decide_True (P := (r, c) ∈ (r0, c0) :: coords)) by (by right).
    + rewrite (decide_False (P := (r, c) ∈ (r0, c0) :: coords)); [done|].
      intros [?|?]%elem_of_cons; congruence.
Qed.

Lemma set_true_out_of_range (coords : list (nat * nat)) :
  forall (a : grid bool) (sh : nat * nat),
  rectangular a sh ->
  (exists r c, (r, c) ∈ coords /\ ~ (r < fst sh /\ c < snd sh)%nat) ->
  exists msg, set_true a coords = ([], Raise (IndexError msg)).
Proof.
  induction coords as [|[r0 c0] coords IH]; intros a sh Hrect Hout.
  { destruct Hout as (r & c & Hin & _). by apply elem_of_nil in Hin. }
  destruct Hrect as [Hlen Hrows]. simpl. unfold grid in *.
  destruct (a !! r0) as [row|] eqn:Hrow; [|by eexists].
  assert (length row = snd sh) as Hrowlen
    by (by eapply Forall_lookup_1 in Hrows).
  destruct (decide (c0 < length row)%nat) as [Hc0|Hc0]; [|by eexists].
  assert (r0 < fst sh)%nat as Hr0.
  { rewrite <- Hlen. by eapply lookup_lt_Some. }
  apply (IH _ sh).
  - by apply set_cell_rectangular.
  - destruct Hout as (r & c & Hin & Hbad).
    apply elem_of_cons in Hin as [[= -> ->]|Hin]; [|by exists r, c].
    exfalso. apply Hbad. split; [done|lia].
Qed.

(** X14. The marker array is the array of the peaks: when every peak lies
    inside the shape the array of booleans is filled without error, keeps
    its shape, and holds [True] exactly at the peaks. *)
Theorem markers_at_peaks (sh : nat * nat) (coords : list (nat * nat)) :
  (forall r c, (r, c) ∈ coords -> (r < fst sh)%nat /\ (c < snd sh)%nat) ->
  exists g,
    set_true (np_zeros_bool sh) coords = ([], Ok g) /\
    rectangular g sh /\
    forall r c, (r < fst sh)%nat -> (c < snd sh)%nat ->
                cell g r c = Some (bool_decide ((r, c) ∈ coords)).
Proof.
  intros Hin.
  destruct (set_true_in_range coords _ sh (np_zeros_bool_rectangular sh) Hin)
    as (g & Hg & Hrect & Hcell).
  exists g. split; [done|]. split; [done|]. intros r c Hr Hc.
  rewrite Hcell, np_zeros_bool_cell by done.
  destruct (decide ((r, c) ∈ coords)).
  - rewrite decide_True by done. by rewrite bool_decide_eq_true_2.
  - by rewrite bool_decide_eq_false_2.
Qed.

(** X15. A peak outside the distance array is not an error of the
    pipeline: the [IndexError] of the marker assignment is caught like a
    failure of a library, and the separator returns 0. *)
Theorem peak_out_of_range `{Vision} (mask : grid Z) (cs : list contour)
    (img : grid Z) (dist : grid Q) (coords : list (nat * nat))
    (r c : nat) :
  drawContours (blank mask) cs = Ok img ->
  distance_transform_edt (foreground img) = Ok dist ->
  peak_local_max dist 5 (foreground img) = Ok coords ->
  (r, c) ∈ coords -> ~ (r < fst (shape dist) /\ c < snd (shape dist))%nat ->
  exists msg,
    step_fails mask cs (IndexError msg) /\
    result (_separate_overlapped mask cs) = Ok 0%Z.
Proof.
  intros H1 H2 H3 Hin Hbad.
  destruct (set_true_out_of_range coords (np_zeros_bool (shape dist))
              (shape dist) (np_zeros_bool_rectangular _))
    as [msg Hmsg]; [by exists r, c|].
  assert (step_fails mask cs (IndexError msg)) as Hfail.
  { eapply fails_markers; try done.
    - intros ->. by apply elem_of_nil in Hin.
    - by rewrite Hmsg. }
  exists msg. split; [done|]. by apply separate_failure in Hfail as [? _].
Qed.

(** ** What makes up [total_count] *)

Section Decomposition.
Context `{Vision}.

(** X25. With contours found, [total_count] is the number of untagged
    contours, plus twice [partial_count], plus [additional_separated]: a
    partial contour is counted once in [individual_count] and once more as
    partial, an overlapped contour only through the regions the watershed
    finds in excess, an artifact not at all.  With an odd number of
    contours the median contour is untagged, so the total is at least 1. *)
Theorem total_count_decomposition (self : SilkyNetInference)
    (mask : grid Z) (threshold : Z) :
  let cs := findContours (binarize mask threshold) in
  cs <> [] ->
  exists d tot par art ov add,
    result (count_contours self mask threshold) = Ok d /\
    d !! "total_count" = Some (VInt tot) /\
    d !! "partial_count" = Some (VInt par) /\
    d !! "artifacts_count" = Some (VInt art) /\
    d !! "overlapped_count" = Some (VInt ov) /\
    d !! "additional_separated" = Some (VInt add) /\
    let untagged := (len cs - art - par - ov)%Z in
    (0 <= untagged)%Z /\
    (tot = untagged + 2 * par + add)%Z /\
    (Nat.odd (length cs) = true -> (1 <= untagged)%Z /\ (1 <= tot)%Z).
Proof.
  intros cs Hne.
  destruct (count_contours_nonempty self mask threshold Hne)
    as (add & _ & Hadd & ->). fold cs.
  set (m := np_median (map contourArea cs)).
  set (st := Tally _ _ _ _).
  destruct (full_result_lookup cs m st add) as (Ht&_&Ho&Hd&Hp&Ha&_&_).
  pose proof (tagged_total m (map contourArea cs)) as Htot.
  pose proof (tagged_nonneg Untagged m (map contourArea cs)).
  pose proof (tagged_nonneg Partial m (map contourArea cs)).
  destruct (tagged_halves cs Hne) as [Hup Hlow]. fold m in Hup, Hlow.
  assert (len (map contourArea cs) = len cs) as Hlen.
  { unfold len. by rewrite length_map. }
  eexists (full_result cs m st add), _, _, _, _, _.
  split; [done|]. do 5 (split; [done|]). cbv zeta. simpl.
  split; [lia|]. split; [lia|].
  intros [q Hq]%Nat.odd_spec. unfold len in *. lia.
Qed.

(** X26. [preprocess_image] hands the network a batch of one image, of
    the shape of the resized image, and with pixel bytes from 0 to 255 its
    values lie between 0 and 1. *)
Theorem preprocess_image_unit (self : SilkyNetInference) (image : rgb) :
  Forall (Forall byte_pixel) (pil_resize image (img_size self)) ->
  exists arr,
    preprocess_image self image = [arr] /\
    shape arr = shape (pil_resize image (img_size self)) /\
    Forall (Forall unit_pixel) arr.
Proof.
  intros Hbytes. unfold preprocess_image. cbv zeta. eexists.
  split; [done|]. split.
  - unfold shape, gmap2. rewrite length_map.
    destruct (pil_resize image (img_size self)); [done|]. simpl.
    by rewrite length_map.
  - unfold gmap2.
    induction Hbytes as [|row img Hrow _ IH]; simpl; constructor; [|done].
    induction Hrow as [|[[r g] b] row (Hr & Hg & Hb) _ IHr]; simpl;
      constructor; [|done].
    assert (forall v, (0 <= v <= 255)%Z ->
                      (0 <= inject_Z v / 255.0 /\ inject_Z v / 255.0 <= 1)%Q)
      as Hscale.
    { intros v [Hv0 Hv1]. pose proof (inject_Z_nonneg v Hv0).
      pose proof (inject_Z_le v 255 Hv1) as Hle.
      change (inject_Z 255) with 255%Q in Hle.
      split; [apply Qle_shift_div_l|apply Qle_shift_div_r]; lra. }
    unfold unit_pixel. auto.
Qed.

End Decomposition.

(** ** The Dice coefficient *)

Lemma tf_sum_zip_bounds (a b : list Q) :
  length a = length b ->
  Forall (fun x => 0 <= x /\ x <= 1)%Q a ->
  Forall (fun x => 0 <= x /\ x <= 1)%Q b ->
  (0 <= tf_sum (zip_with Qmult a b) /\
   tf_sum (zip_with Qmult a b) <= tf_sum a /\
   tf_sum (zip_with Qmult a b) <= tf_sum b /\
   0 <= tf_sum a /\ 0 <= tf_sum b)%Q.
Proof.
  intros Hlen Ha. revert b Hlen.
  induction Ha as [|x a [Hx0 Hx1] _ IH]; intros [|y b] Hlen Hb;
    try discriminate; simpl.
  { repeat split; lra. }
  inversion Hb as [|? ? [Hy0 Hy1] Hb']; subst.
  destruct (IH b ltac:(by injection Hlen) Hb') as (I0 & I1 & I2 & I3 & I4).
  assert (0 <= x * y)%Q by (apply Qmult_le_0_compat; lra).
  assert (0 <= x * (1 - y))%Q as H1 by (apply Qmult_le_0_compat; lra).
  assert (0 <= (1 - x) * y)%Q as H2 by (apply Qmult_le_0_compat; lra).
  assert (x * (1 - y) == x - x * y)%Q as E1 by ring.
  assert ((1 - x) * y == y - x * y)%Q as E2 by ring.
  rewrite E1 in H1. rewrite E2 in H2.
  repeat split; lra.
Qed.

Lemma tf_mul_same_length (a b : list Q) :
  length a = length b -> tf_mul a b = ([], Ok (zip_with Qmult a b)).
Proof. intros Hlen. unfold tf_mul. by rewrite decide_True. Qed.

Lemma tf_sum_square (a : list Q) :
  Forall (fun x => x == 0 \/ x == 1)%Q a ->
  (tf_sum (zip_with Qmult a a) == tf_sum a)%Q.
Proof.
  induction 1 as [|x a Hx _ IH]; simpl; [reflexivity|].
  rewrite IH. destruct Hx as [-> | ->]; ring.
Qed.

Lemma tf_sum_binary_nonneg (a : list Q) :
  Forall (fun x => x == 0 \/ x == 1)%Q a -> (0 <= tf_sum a)%Q.
Proof.
  induction 1 as [|x a Hx _ IH]; simpl; [lra|].
  destruct Hx as [-> | ->]; lra.
Qed.

(** X16. For two tensors with the same number of elements, all between 0
    and 1, the Dice coefficient is computed without error and lies in
    (0, 1]: the smoothing term keeps the denominator positive even when
    both tensors are zero. *)
Theorem dice_coef_range (y_true y_pred : tensor) :
  length (flatten y_true) = length (flatten y_pred) ->
  Forall (fun x => 0 <= x /\ x <= 1)%Q (flatten y_true) ->
  Forall (fun x => 0 <= x /\ x <= 1)%Q (flatten y_pred) ->
  exists score,
    dice_coef y_true y_pred = ([], Ok score) /\ (0 < score /\ score <= 1)%Q.
Proof.
  intros Hlen Ht Hp. unfold dice_coef. cbv zeta.
  rewrite (tf_mul_same_length _ _ Hlen), bind_pure.
  eexists. split; [done|].
  destruct (tf_sum_zip_bounds _ _ Hlen Ht Hp) as (I0 & I1 & I2 & I3 & I4).
  split.
  - apply Qlt_shift_div_l; lra.
  - apply Qle_shift_div_r; lra.
Qed.

(** X17. A mask of zeros and ones agrees perfectly with itself: its Dice
    coefficient with itself is 1, also for the mask that is zero
    everywhere. *)
Theorem dice_coef_self (y : tensor) :
  Forall (fun x => x == 0 \/ x == 1)%Q (flatten y) ->
  exists score, dice_coef y y = ([], Ok score) /\ (score == 1)%Q.
Proof.
  intros Hy. unfold dice_coef. cbv zeta.
  rewrite (tf_mul_same_length _ _ eq_refl), bind_pure.
  eexists. split; [done|].
  rewrite (tf_sum_square _ Hy).
  pose proof (tf_sum_binary_nonneg _ Hy).
  field. lra.
Qed.

(** ** File names *)

Lemma ascii_lower_dot (c : ascii) :
  Ascii.eqb (ascii_lower c) "." = Ascii.eqb c ".".
Proof. by destruct c as [[] [] [] [] [] [] [] []]. Qed.

Lemma ascii_lower_idem (c : ascii) :
  ascii_lower (ascii_lower c) = ascii_lower c.
Proof. by destruct c as [[] [] [] [] [] [] [] []]. Qed.

Lemma lower_idem (s : string) : lower (lower s) = lower s.
Proof.
  induction s as [|c s IH]; [done|]. simpl. by rewrite ascii_lower_idem, IH.
Qed.

Lemma str_contains_lower (s : string) :
  str_contains "." (lower s) = str_contains "." s.
Proof.
  induction s as [|c s IH]; [done|]. simpl. by rewrite ascii_lower_dot, IH.
Qed.

Lemma after_last_dot_lower (s : string) :
  after_last_dot (lower s) = lower <$> after_last_dot s.
Proof.
  induction s as [|c s IH]; [done|]. simpl. rewrite IH, ascii_lower_dot.
  destruct (after_last_dot s); simpl; [done|]. by destruct (Ascii.eqb c ".").
Qed.

(** The cut of [rsplit] and the extension. *)
Lemma rsplit1_after_last_dot (s : string) :
  match after_last_dot s with
  | Some ext =>
      str_contains "." s = true /\
      str_contains "." ext = false /\
      exists before, rsplit1 "." s = [before; ext] /\
                     s = (before +:+ String "." ext)
  | None => str_contains "." s = false /\ rsplit1 "." s = [s]
  end.
Proof.
  induction s as [|c s IH]; [done|]. simpl.
  destruct (after_last_dot s) as [ext|].
  - destruct IH as (Hs & Hext & before & -> & Heq).
    rewrite Hs, orb_true_r. split; [done|]. split; [done|].
    exists (String c before). split; [done|].
    change (String c s = String c (before +:+ String "." ext)).
    by rewrite <- Heq.
  - destruct IH as (Hs & ->). rewrite Hs, orb_false_r.
    destruct (Ascii.eqb_spec c ".") as [->|Hc].
    + split; [done|]. split; [done|]. by exists EmptyString.
    + split; [done|]. done.
Qed.

Lemma after_last_dot_app (stem ext : string) :
  str_contains "." ext = false ->
  after_last_dot (stem +:+ String "." ext) = Some ext.
Proof.
  intros Hext.
  assert (after_last_dot ext = None) as Hnone.
  { pose proof (rsplit1_after_last_dot ext) as Hs.
    destruct (after_last_dot ext); [|done]. destruct Hs. congruence. }
  induction stem as [|c stem IH]; simpl.
  - by rewrite Hnone.
  - by rewrite IH.
Qed.

Lemma allowed_no_dot (ext : string) :
  ext ∈ ALLOWED_EXTENSIONS -> str_contains "." ext = false.
Proof.
  unfold ALLOWED_EXTENSIONS. rewrite !elem_of_union, !elem_of_singleton.
  by intros [[-> | ->] | ->].
Qed.

Lemma allowed_file_spec (name : string) :
  allowed_file name = ([], Ok (has_allowed_extension name)).
Proof.
  unfold allowed_file, has_allowed_extension.
  pose proof (rsplit1_after_last_dot name) as Hs.
  destruct (after_last_dot name) as [ext|].
  - destruct Hs as (-> & _ & before & -> & _). done.
  - destruct Hs as [-> _]. done.
Qed.

(** X18. [allowed_file] never fails -- the index into the result of
    [rsplit] is always there when it is reached -- and it accepts a name
    exactly when the name is some stem, a dot, and an extension whose lower
    case is png, jpg or jpeg: only what follows the last dot counts, and a
    name without a dot is refused. *)
Theorem allowed_file_accepts (name : string) :
  exists b,
    allowed_file name = ([], Ok b) /\
    (b = true <->
     exists stem ext, name = (stem +:+ String "." ext) /\
                      lower ext ∈ ALLOWED_EXTENSIONS).
Proof.
  exists (has_allowed_extension name). split; [apply allowed_file_spec|].
  unfold has_allowed_extension.
  pose proof (rsplit1_after_last_dot name) as Hs. split.
  - destruct (after_last_dot name) as [ext|]; [|done].
    destruct Hs as (_ & _ & before & _ & ->).
    intros Hb%bool_decide_eq_true. by exists before, ext.
  - intros (stem & ext & -> & Hext).
    rewrite after_last_dot_app.
    + by apply bool_decide_eq_true.
    + rewrite <- str_contains_lower. by apply allowed_no_dot.
Qed.

(** X19. The check does not look at the case of the name: a name and its
    lower case are accepted or refused together. *)
Theorem allowed_file_case (name : string) :
  allowed_file (lower name) = allowed_file name.
Proof.
  rewrite !allowed_file_spec. do 2 f_equal.
  unfold has_allowed_extension. rewrite after_last_dot_lower.
  destruct (after_last_dot name) as [ext|]; simpl; [|done].
  by rewrite lower_idem.
Qed.

(** ** [batch_segment] *)

Lemma result_for_each_app {A S} (f : S -> A -> M S) (l1 l2 : list A) (s : S) :
  result (for_each f (l1 ++ l2) s) =
  match result (for_each f l1 s) with
  | Ok s' => result (for_each f l2 s')
  | Raise e => Raise e
  end.
Proof.
  revert s. induction l1 as [|x l1 IH]; intros s; simpl; [done|].
  rewrite !result_bind. destruct (result (f s x)); [apply IH|done].
Qed.

Lemma accepted_spec (u : upload) :
  (if decide (filename u = "") then mret false
   else allowed_file (filename u)) = ([], Ok (accepted u)).
Proof.
  unfold accepted. destruct (decide (filename u = "")) as [->|Hne]; [done|].
  rewrite allowed_file_spec. apply String.eqb_neq in Hne. by rewrite Hne.
Qed.

Section Batch.
Context `{Vision} `{Web}.

Lemma predict_has_total (self : SilkyNetInference) (image : rgb)
    (d : gmap string pyval) :
  result (predict self image) = Ok d ->
  exists t, d !! "total_count" = Some (VInt t).
Proof.
  intros Hd. pose proof (predict_outcome self image) as Hout.
  destruct (result (segment self image)) as [mask|e]; [|congruence].
  destruct Hout as (dc & cs & c & _ & Hform & _ & _ & _ & Hout).
  destruct (result (create_visualization self image mask cs)) as [viz|e];
    [|congruence].
  rewrite Hd in Hout. injection Hout as ->.
  destruct Hform as [->|(m & st & add & ->)].
  - exists 0%Z. apply lookup_union_Some_l. apply empty_result_lookup.
  - eexists. apply lookup_union_Some_l. apply full_result_lookup.
Qed.

(** What one round of the loop does. *)
Lemma batch_step_skip (model : SilkyNetInference) (acc : list json)
    (u : upload) :
  accepted u = false -> batch_step model acc u = ([], Ok acc).
Proof.
  intros Hu. unfold batch_step. rewrite accepted_spec, bind_pure.
  by rewrite Hu.
Qed.

Lemma batch_step_accept (model : SilkyNetInference) (acc acc' : list json)
    (u : upload) :
  accepted u = true ->
  result (batch_step model acc u) = Ok acc' ->
  exists d count, acc' = acc ++ [batch_entry u d count].
Proof.
  intros Hu. unfold batch_step. rewrite accepted_spec, bind_pure, Hu.
  cbv zeta. rewrite result_libcall.
  destruct (image_open (content u)) as [image|e]; [|done].
  rewrite result_bind.
  match goal with
  | |- context [match ?r with _ => _ end] =>
      destruct r as [image'|e] eqn:Himage; [|done]
  end.
  rewrite result_bind.
  destruct (result (predict model (pixels image'))) as [d|e] eqn:Hd; [|done].
  destruct (predict_has_total _ _ _ Hd) as [t Ht].
  rewrite result_bind. unfold getitem. rewrite Ht. simpl.
  intros [= <-]. by eexists _, _.
Qed.

(** The results are those of the accepted files, in order. *)
Lemma batch_loop (model : SilkyNetInference) (uploads : list upload) :
  forall acc rs,
  result (for_each (batch_step model) uploads acc) = Ok rs ->
  exists entries,
    rs = acc ++ entries /\
    Forall2 (fun u entry => exists d count, entry = batch_entry u d count)
            (List.filter accepted uploads) entries.
Proof.
  induction uploads as [|u uploads IH]; intros acc rs; simpl.
  { intros [= <-]. exists []. by rewrite app_nil_r. }
  rewrite result_bind.
  destruct (result (batch_step model acc u)) as [acc'|e] eqn:Hstep; [|done].
  intros Hrs. destruct (IH acc' rs Hrs) as (entries & -> & Hentries).
  destruct (accepted u) eqn:Hu.
  - destruct (batch_step_accept _ _ _ _ Hu Hstep) as (d & count & ->).
    exists (batch_entry u d count :: entries). rewrite <- app_assoc.
    split; [done|]. constructor; [by eexists _, _|done].
  - rewrite (batch_step_skip _ _ _ Hu) in Hstep. injection Hstep as <-.
    by exists entries.
Qed.

(** How the [try] block ends once the model is there. *)
Lemma batch_body_loaded (silkynet : option SilkyNetInference)
    (model : SilkyNetInference) (files : list (string * upload)) :
  result (init_model silkynet) = Ok (Some model) ->
  result (batch_body silkynet files) =
  match getlist files "files" with
  | [] => Ok (failure "No files provided" 400)
  | u :: us =>
      if (10 <? len (u :: us))%Z
      then Ok (failure "Maximum 10 files per batch" 400)
      else match result (for_each (batch_step model) (u :: us) []) with
           | Ok results => Ok (Response (success_body results) 200)
           | Raise e => Raise e
           end
  end.
Proof.
  intros Hinit. unfold batch_body. rewrite result_bind, Hinit.
  destruct (getlist files "files") as [|u uploads]; [done|]. cbv zeta.
  destruct (10 <? len (u :: uploads))%Z; [done|].
  rewrite result_bind. by destruct (result (for_each _ _ _)).
Qed.

Lemma init_model_cases (silkynet : option SilkyNetInference) :
  (exists model, result (init_model silkynet) = Ok (Some model)) \/
  result (init_model silkynet) = Ok None \/
  (exists e, result (init_model silkynet) = Raise e).
Proof.
  destruct (result (init_model silkynet)) as [[model|]|e]; eauto.
Qed.

Lemma batch_body_cases (silkynet : option SilkyNetInference)
    (files : list (string * upload)) :
  (exists e, result (batch_body silkynet files) = Raise e) \/
  (exists msg code, (code = 400 \/ code = 500)%nat /\
     result (batch_body silkynet files) = Ok (failure msg code)) \/
  (exists model results,
     result (init_model silkynet) = Ok (Some model) /\
     (len (getlist files "files") <= 10)%Z /\
     result (for_each (batch_step model) (getlist files "files") [])
       = Ok results /\
     result (batch_body silkynet files)
       = Ok (Response (success_body results) 200)).
Proof.
  destruct (init_model_cases silkynet) as [[model Hm]|[Hnone|[e He]]].
  - rewrite (batch_body_loaded _ _ _ Hm).
    destruct (getlist files "files") as [|u uploads] eqn:Hfiles.
    { right; left. exists "No files provided", 400%nat.
      split; [auto|reflexivity]. }
    destruct (Z.ltb_spec 10 (len (u :: uploads))).
    { right; left. exists "Maximum 10 files per batch", 400%nat.
      split; [auto|reflexivity]. }
    destruct (result (for_each (batch_step model) (u :: uploads) []))
      as [results|e] eqn:Hloop.
    + right; right. by exists model, results.
    + left. by exists e.
  - right; left. exists "Model not loaded", 500%nat. split; [auto|].
    unfold batch_body. by rewrite result_bind, Hnone.
  - left. exists e. unfold batch_body. by rewrite result_bind, He.
Qed.

(** X20. [batch_segment] never raises: whatever the request and whatever
    fails underneath, it answers with status 200, 400 or 500; the body says
    [success: true] exactly when the status is 200, and otherwise it is a
    failure body with an error message. *)
Theorem batch_segment_answers (silkynet : option SilkyNetInference)
    (files : list (string * upload)) :
  exists resp,
    result (batch_segment silkynet files) = Ok resp /\
    (status resp = 200 \/ status resp = 400 \/ status resp = 500)%nat /\
    (status resp = 200%nat <->
     field (body resp) "success" = Some (JBool true)) /\
    (status resp <> 200%nat ->
     exists msg, resp = failure msg (status resp)).
Proof.
  unfold batch_segment. rewrite result_try_except.
  destruct (batch_body_cases silkynet files)
    as [[e ->]|[(msg & code & Hcode & ->)|(model & results & _ & _ & _ & ->)]].
  - exists (failure (exn_msg e) 500). simpl. repeat split; auto; try done.
    by exists (exn_msg e).
  - exists (failure msg code). simpl.
    repeat split; try (destruct Hcode as [-> | ->]; by auto).
    by exists msg.
  - eexists. simpl. repeat split; auto. done.
Qed.

(** X21. More than ten parts named [files] are refused with status 400
    before any of them is read: nothing happens but the loading of the
    model. *)
Theorem batch_segment_limit (silkynet : option SilkyNetInference)
    (model : SilkyNetInference) (files : list (string * upload)) :
  result (init_model silkynet) = Ok (Some model) ->
  (10 < length (getlist files "files"))%nat ->
  batch_segment silkynet files =
  (trace (init_model silkynet),
   Ok (failure "Maximum 10 files per batch" 400)).
Proof.
  intros Hinit Hlen. unfold batch_segment, batch_body.
  rewrite (M_eta (init_model silkynet)), Hinit.
  destruct (getlist files "files") as [|u uploads] eqn:Hfiles;
    [simpl in Hlen; lia|].
  assert ((10 <? len (u :: uploads))%Z = true) as Hlt.
  { apply Z.ltb_lt. unfold len. lia. }
  unfold mbind, M_bind, bind. rewrite Hlt. simpl. by rewrite app_nil_r.
Qed.

(** X22. When [batch_segment] answers 200, at most ten parts named
    [files] were sent, and the results are those of the parts that have a
    file name with an allowed extension, in the order of the request, each
    under its secured file name: the other parts are skipped without a
    word, and [total_processed] counts the results, not the parts. *)
Theorem batch_segment_processed (silkynet : option SilkyNetInference)
    (files : list (string * upload)) (resp : response) :
  result (batch_segment silkynet files) = Ok resp ->
  status resp = 200%nat ->
  let uploads := getlist files "files" in
  exists results,
    body resp = JObj [("success", JBool true);
                      ("total_processed", JInt (len results));
                      ("results", JList results)] /\
    (length uploads <= 10)%nat /\
    length results = length (List.filter accepted uploads) /\
    map (fun entry => field entry "filename") results =
    map (fun u => Some (JStr (secure_filename (filename u))))
        (List.filter accepted uploads).
Proof.
  unfold batch_segment. rewrite result_try_except. intros Hresp Hstatus.
  destruct (batch_body_cases silkynet files)
    as [[e He]|[(msg & code & Hcode & Hfail)|
                (model & results & _ & Hlen & Hloop & Hok)]].
  - rewrite He in Hresp. injection Hresp as <-. done.
  - rewrite Hfail in Hresp. injection Hresp as <-. simpl in Hstatus.
    destruct Hcode; lia.
  - rewrite Hok in Hresp. injection Hresp as <-.
    destruct (batch_loop _ _ _ _ Hloop) as (entries & -> & Hentries).
    exists entries. split; [done|]. split; [unfold len in Hlen; lia|].
    split; [symmetry; by eapply Forall2_length|].
    clear -Hentries.
    induction Hentries as [|u entry us entries (d & count & ->) _ IH];
      [done|].
    simpl. by rewrite IH.
Qed.

(** X23. A batch is all or nothing: as soon as one accepted part fails --
    its image cannot be opened or converted, or [predict] raises -- the
    answer is status 500 with the message of that exception, and the
    results of the parts before it are dropped. *)
Theorem batch_segment_all_or_nothing (silkynet : option SilkyNetInference)
    (model : SilkyNetInference) (files : list (string * upload))
    (before after : list upload) (u : upload) (results : list json)
    (e : exn) :
  result (init_model silkynet) = Ok (Some model) ->
  getlist files "files" = before ++ u :: after ->
  (length (before ++ u :: after) <= 10)%nat ->
  result (for_each (batch_step model) before []) = Ok results ->
  result (batch_step model results u) = Raise e ->
  result (batch_segment silkynet files) = Ok (failure (exn_msg e) 500).
Proof.
  intros Hinit Hfiles Hlen Hbefore Hstep.
  unfold batch_segment. rewrite result_try_except.
  rewrite (batch_body_loaded _ _ _ Hinit), Hfiles.
  destruct (before ++ u :: after) as [|u0 us] eqn:Hall;
    [by destruct before|].
  assert ((10 <? len (u0 :: us))%Z = false) as ->.
  { apply Z.ltb_ge. unfold len. lia. }
  rewrite <- Hall, result_for_each_app, Hbefore. simpl.
  by rewrite result_bind, Hstep.
Qed.

(** X24. Without a model there is no batch: when no model is loaded and
    the model file is missing, every request is answered 500 "Model not
    loaded" after the warning is printed; when loading the model raises,
    the answer is 500 with the message of the exception.  A model that is
    loaded is not loaded again: [init_model] returns it without looking at
    the file system. *)
Theorem batch_segment_without_model (files : list (string * upload)) :
  (path_exists MODEL_PATH = false ->
   batch_segment None files =
   ([Print ("⚠️  Model not found at " +:+ MODEL_PATH)],
    Ok (failure "Model not loaded" 500))) /\
  (forall e, path_exists MODEL_PATH = true ->
             load_model MODEL_PATH = Raise e ->
   batch_segment None files =
   ([LibCall "load_model"], Ok (failure (exn_msg e) 500))) /\
  (forall model, init_model (Some model) = ([], Ok (Some model))).
Proof.
  split; [|split].
  - intros Hpath. unfold batch_segment, batch_body, init_model.
    by rewrite Hpath.
  - intros e Hpath Hload.
    unfold batch_segment, batch_body, init_model, new_inference, _load_model.
    by rewrite Hpath, Hload.
  - done.
Qed.

End Batch.

(** * The methods on concrete scenes *)

Module Examples.
Import Scene.

(** The crowded scene: the median area is 9, the four specks are artifacts
    and the four clumps are overlapped. *)
Lemma classification_thresholds_witness :
  contours_found crowded <> [] /\
  exists st,
    classify (contours_found crowded)
             (map polygon_area (contours_found crowded))
             (np_median (map polygon_area (contours_found crowded)))
    = ([], Ok st) /\
    artifacts st = 4%Z /\ partial st = 0%Z /\ overlapped st = 4%Z.
Proof.
  split; [discriminate|].
  destruct (classification_thresholds (H := vision crowded)
              (contours_found crowded))
    as (_ & _ & st & Hst & Ha & Hp & Ho & _); [discriminate|].
  exists st. split; [exact Hst|]. rewrite Ha, Hp, Ho.
  repeat split; vm_compute; reflexivity.
Defined.


(** Three single-point contours. *)
Lemma zero_area_contours_witness :
  exists d,
    count_contours (H := vision points) engine small_mask 200 = ([], Ok d) /\
    d !! "overlapped_count" = Some (VInt 0) /\
    d !! "additional_separated" = Some (VInt 0) /\
    d !! "total_count" = Some (VInt 3).
Proof.
  destruct (zero_area_contours (H := vision points) engine small_mask 200)
    as (_ & _ & d & Hd & _ & _ & Ho & Hadd & _ & Htot).
  - done.
  - intros c Hc. vm_compute in Hc.
    repeat (apply elem_of_cons in Hc as [->|Hc]; [reflexivity|]).
    by apply elem_of_nil in Hc.
  - exists d. repeat split; try done.
Defined.

Lemma confidence_formula_witness :
  exists c, _calculate_confidence six_larvae = ([], Ok c) /\
            (0 <= c /\ c <= 1)%Q.
Proof.
  destruct (confidence_formula six_larvae 6 1 1) as (c & Hc & _ & _ & Hr);
    [reflexivity|reflexivity|reflexivity|lia|lia|].
  by exists c.
Defined.

(** The crowded scene gives a count of 1 with confidence 0.0: one larva,
    four artifacts, four overlapped contours that the watershed does not
    split. *)
Lemma confidence_zero_positive_total :
  ~ (forall (V : Vision) self mask threshold d t c,
       result (count_contours (H := V) self mask threshold) = Ok d ->
       d !! "total_count" = Some (VInt t) ->
       result (_calculate_confidence d) = Ok c ->
       (c == 0)%Q <-> t = 0%Z).
Proof.
  intros Hall.
  destruct (count_contours_nonempty (H := vision crowded) engine small_mask 200)
    as (add & Hadd & _ & Hcc); [done|].
  vm_compute in Hadd. injection Hadd as <-.
  set (d := full_result _ _ _ _) in Hcc.
  destruct (full_result_lookup
              (@findContours (vision crowded) (binarize small_mask 200))
              (np_median (map polygon_area
                 (@findContours (vision crowded) (binarize small_mask 200))))
              (Tally 4 0 4 (map square [4; 4; 4; 4]%Z)) 0)
    as (Ht & _ & Ho & _ & _ & Ha & _).
  change (full_result _ _ _ _) with d in Ht, Ho, Ha.
  cbn [artifacts partial overlapped] in Ht, Ho, Ha.
  pose proof (confidence_positive_total d _ _ _ Ht Ha Ho) as Hc.
  assert (result (count_contours (H := vision crowded) engine small_mask 200)
          = Ok d) as Hd by (by rewrite Hcc).
  apply (f_equal result) in Hc; [|by vm_compute|by vm_compute].
  pose proof (proj1 (Hall (vision crowded) engine small_mask 200%Z d _ _
                          Hd Ht Hc) ltac:(by vm_compute)) as Habs.
  by vm_compute in Habs.
Qed.

Lemma confidence_zero_iff_witness :
  exists c, _calculate_confidence six_larvae = ([], Ok c) /\ (0 < c)%Q.
Proof.
  destruct (confidence_zero_iff six_larvae 6 1 1) as (c & Hc & _ & Hpos & _);
    [reflexivity|reflexivity|reflexivity|lia|lia|].
  exists c. split; [done|]. apply Hpos; lia.
Defined.

(** A 1 x 5 mask handed to an engine configured for 512 x 512. *)
Lemma no_dimension_check :
  ~ (forall (V : Vision) self mask threshold,
       ~ matches_size self mask ->
       exists e, result (count_contours (H := V) self mask threshold)
                 = Raise e).
Proof.
  intros Hall.
  destruct (Hall (vision uniform) engine small_mask 200%Z) as [e He].
  - by intros [=].
  - destruct (count_contours_nonempty (H := vision uniform) engine
                small_mask 200) as (add & _ & _ & Hcc);
      [vm_compute; discriminate|].
    rewrite Hcc in He. discriminate He.
Qed.

(** An all-background mask. *)
Lemma empty_contours_result_witness :
  exists d,
    count_contours (H := vision crowded) engine background_mask 200
      = ([], Ok d) /\
    d !! "total_count" = Some (VInt 0) /\
    d !! "additional_separated" = None /\
    _calculate_confidence d = ([], Ok 0%Q).
Proof.
  destruct (empty_contours_result (H := vision crowded) engine
              background_mask 200)
    as (d & Hd & Ht & _ & _ & _ & _ & _ & Hadd & _ & Hc); [reflexivity|].
  by exists d.
Defined.

(** The clump is split in three: two more larvae than contours. *)
Lemma additional_separated_spec_witness :
  exists d,
    result (count_contours (H := vision clump) engine small_mask 200) = Ok d /\
    d !! "overlapped_count" = Some (VInt 1) /\
    d !! "additional_separated" = Some (VInt 2).
Proof.
  destruct (additional_separated_spec (H := vision clump) engine small_mask 200)
    as (d & Hd & Hov & _ & _ & Hlab & _).
  exists d. split; [exact Hd|]. split; [by apply Hov|].
  destruct (Hlab ltac:(vm_compute; discriminate)
                 ltac:(vm_compute; discriminate) [(0, 0); (0, 1)]%nat
                 [[0; 1; 2; 3]]%Z) as [_ Hbg].
  - by econstructor.
  - apply Hbg. by left.
Defined.

(** The watershed raises: the count goes on with no additional larva. *)
Lemma separation_failure_contained_witness :
  exists d,
    result (count_contours (H := vision broken) engine small_mask 200) = Ok d /\
    d !! "additional_separated" = Some (VInt 0).
Proof.
  destruct (separation_failure_contained (H := vision broken) engine
              small_mask 200 [])
    as (_ & _ & Hcount & _).
  apply (Hcount (Exception "ValueError" "markers out of range"));
    [vm_compute; discriminate|].
  by eapply fails_watershed.
Defined.

End Examples.


(** * Further checks on concrete inputs *)

Module Checks.
Import Scene Fixtures.

Lemma confidence_one_iff_witness :
  exists c, _calculate_confidence clean_count = ([], Ok c) /\ (c == 1)%Q.
Proof.
  destruct (confidence_one_iff clean_count 3 0 0) as (c & Hc & Hone);
    [reflexivity|reflexivity|reflexivity|lia|lia|lia|].
  exists c. split; [done|]. by apply Hone.
Defined.

Lemma confidence_antitone_artifacts_witness :
  exists c c',
    _calculate_confidence six_larvae = ([], Ok c) /\
    _calculate_confidence (<["artifacts_count" := VInt 4]> six_larvae)
      = ([], Ok c') /\
    (c' <= c)%Q.
Proof.
  apply (confidence_antitone_artifacts six_larvae 6 1 4 1);
    [reflexivity|reflexivity|reflexivity|lia|lia|lia].
Defined.

Lemma confidence_antitone_overlapped_witness :
  exists c c',
    _calculate_confidence six_larvae = ([], Ok c) /\
    _calculate_confidence (<["overlapped_count" := VInt 5]> six_larvae)
      = ([], Ok c') /\
    (c' <= c)%Q.
Proof.
  apply (confidence_antitone_overlapped six_larvae 6 1 1 5);
    [reflexivity|reflexivity|reflexivity|lia|lia|lia].
Defined.

Lemma confidence_errors_witness :
  _calculate_confidence ∅ = ([], Raise (KeyError "total_count")) /\
  _calculate_confidence cancelling_count = ([], Raise ZeroDivisionError).
Proof.
  split.
  - apply (confidence_errors ∅). reflexivity.
  - destruct (confidence_errors cancelling_count) as (_ & _ & _ & _ & Hzero).
    apply (Hzero 2 (-2))%Z; [reflexivity|reflexivity|lia|lia].
Defined.

Lemma uniform_area_contours_witness :
  exists d c,
    count_contours (H := vision uniform) engine small_mask 200 = ([], Ok d) /\
    d !! "total_count" = Some (VInt 3) /\
    _calculate_confidence d = ([], Ok c) /\ (c == 1)%Q.
Proof.
  destruct (uniform_area_contours (H := vision uniform) engine small_mask 200
              4%Q)
    as (d & c & Hd & _ & _ & _ & _ & _ & Htot & Hc & Hone).
  - vm_compute. discriminate.
  - intros c Hc. vm_compute in Hc.
    repeat (apply elem_of_cons in Hc as [->|Hc]; [reflexivity|]).
    by apply elem_of_nil in Hc.
  - by exists d, c.
Defined.

Lemma threshold_inert_witness :
  count_contours (H := vision clump) engine small_mask 0
  = count_contours (H := vision clump) engine small_mask 200.
Proof.
  apply (threshold_inert (H := vision clump) engine small_mask 0 200).
  - unfold binary_mask, small_mask.
    repeat (match goal with |- Forall _ _ => constructor end);
      (by left) || (by right).
  - lia.
  - lia.
Defined.


Lemma segment_mask_witness :
  binary_mask [[1; 1]]%Z.
Proof.
  destruct (segment_mask (H := vision uniform) engine red_strip [[1; 1]]%Z)
    as (_ & _ & _ & _ & _ & Hb); [reflexivity|exact Hb].
Defined.

Lemma predict_result_witness :
  exists d c,
    result (predict (H := vision uniform) engine red_strip) = Ok d /\
    d !! "mask" = Some (VMask [[1; 1]]%Z) /\
    d !! "confidence" = Some (VFloat c) /\ (0 <= c /\ c <= 1)%Q.
Proof.
  destruct (result (predict (H := vision uniform) engine red_strip))
    as [d|e] eqn:Hd.
  - destruct (predict_result (H := vision uniform) engine red_strip d Hd)
      as (mask & dc & cs & viz & c & Hseg & _ & _ & _ & _ & Hc & Hm & _
          & Hcf & _).
    vm_compute in Hseg. injection Hseg as <-.
    exists d, c. split; [reflexivity|]. split; [exact Hm|].
    split; [exact Hcf|exact Hc].
  - pose proof (predict_outcome (H := vision uniform) engine red_strip)
      as Hout.
    change (result (segment (H := vision uniform) engine red_strip))
      with (@Ok (grid Z) [[1; 1]]%Z) in Hout.
    destruct Hout as (dc & cs & c & _ & _ & _ & _ & _ & Hout).
    assert (exists viz,
      result (create_visualization (H := vision uniform) engine red_strip
                [[1; 1]]%Z cs) = Ok viz) as [viz Hviz]
      by (eexists; vm_compute; reflexivity).
    rewrite Hviz, Hd in Hout. discriminate Hout.
Defined.

Lemma predict_shape_mismatch_witness :
  result (predict (H := one_pixel_net) engine red_strip)
  = Raise (IndexError "boolean index did not match indexed array").
Proof.
  apply (predict_shape_mismatch (H := one_pixel_net) engine red_strip
           [[1]]%Z).
  - reflexivity.
  - vm_compute. discriminate.
Defined.

Lemma tint_uint8_witness :
  tint (100, 50, 255)%Z = (60, 132, 153)%Z.
Proof.
  destruct (tint_uint8 100 50 255) as [Ht _]; [lia|lia|lia|].
  rewrite Ht. reflexivity.
Defined.

Lemma markers_at_peaks_witness :
  exists g,
    set_true (np_zeros_bool (2, 3)%nat) [(0, 1); (1, 2)]%nat = ([], Ok g) /\
    cell g 0 1 = Some true /\ cell g 1 1 = Some false.
Proof.
  destruct (markers_at_peaks (2, 3)%nat [(0, 1); (1, 2)]%nat)
    as (g & Hg & _ & Hcell).
  - intros r c Hrc.
    repeat (apply elem_of_cons in Hrc as [[= -> ->]|Hrc]; [simpl; lia|]).
    by apply elem_of_nil in Hrc.
  - exists g. split; [done|].
    rewrite !Hcell by (simpl; lia). split; reflexivity.
Defined.

Lemma peak_out_of_range_witness :
  result (_separate_overlapped (H := vision stray_peak)
            (binarize small_mask 200) [square 5]) = Ok 0%Z.
Proof.
  destruct (peak_out_of_range (H := vision stray_peak)
              (binarize small_mask 200) [square 5]
              (gmap2 (fun _ => 255%Z) (blank (binarize small_mask 200)))
              [[1; 1; 1; 1; 1]]%Q [(3, 0)%nat] 3 0)
    as (msg & _ & Hres).
  - reflexivity.
  - reflexivity.
  - reflexivity.
  - by left.
  - simpl. lia.
  - exact Hres.
Defined.

Lemma dice_coef_range_witness :
  exists score,
    dice_coef [[[[1; 0.5]]]]%Q [[[[0.25; 1]]]]%Q = ([], Ok score) /\
    (0 < score /\ score <= 1)%Q.
Proof.
  apply (dice_coef_range [[[[1; 0.5]]]]%Q [[[[0.25; 1]]]]%Q).
  - reflexivity.
  - repeat constructor; simpl; lra.
  - repeat constructor; simpl; lra.
Defined.

Lemma dice_coef_self_witness :
  exists score,
    dice_coef [[[[1; 0; 1]]]]%Q [[[[1; 0; 1]]]]%Q = ([], Ok score) /\
    (score == 1)%Q.
Proof.
  apply (dice_coef_self [[[[1; 0; 1]]]]%Q).
  repeat constructor; simpl; (by left) || (by right).
Defined.

Lemma batch_segment_limit_witness :
  batch_segment (H := vision uniform) (H0 := web) (Some engine) eleven
  = ([], Ok (failure "Maximum 10 files per batch" 400)).
Proof.
  apply (batch_segment_limit (H := vision uniform) (H0 := web)
           (Some engine) engine eleven).
  - reflexivity.
  - simpl. lia.
Defined.

Lemma batch_segment_processed_witness :
  exists resp results,
    result (batch_segment (H := vision uniform) (H0 := web) (Some engine)
              mixed) = Ok resp /\
    body resp = success_body results /\
    map (fun entry => field entry "filename") results
    = [Some (JStr "a.PNG")].
Proof.
  destruct (result (batch_segment (H := vision uniform) (H0 := web)
                      (Some engine) mixed)) as [resp|e] eqn:Hresp;
    [|by vm_compute in Hresp].
  destruct (batch_segment_processed (H := vision uniform) (H0 := web)
              (Some engine) mixed resp Hresp)
    as (results & Hbody & _ & _ & Hnames).
  - vm_compute in Hresp. by injection Hresp as <-.
  - by exists resp, results.
Defined.

Lemma batch_segment_all_or_nothing_witness :
  result (batch_segment (H := vision uniform) (H0 := web) (Some engine)
            spoiled)
  = Ok (failure "cannot identify image file" 500).
Proof.
  destruct (result (for_each
              (batch_step (H := vision uniform) (H0 := web) engine)
              [Upload "a.png" "x"] [])) as [results|e] eqn:Hfirst;
    [|by vm_compute in Hfirst].
  apply (batch_segment_all_or_nothing (H := vision uniform) (H0 := web)
           (Some engine) engine spoiled [Upload "a.png" "x"]
           [Upload "c.jpeg" "x"] (Upload "b.jpg" "bad") results
           (Exception "UnidentifiedImageError" "cannot identify image file")).
  - reflexivity.
  - reflexivity.
  - simpl. lia.
  - exact Hfirst.
  - reflexivity.
Defined.

Lemma batch_segment_without_model_witness :
  batch_segment (H := vision uniform) (H0 := bare) None mixed
  = ([Print "⚠️  Model not found at Unet.hdf5"],
     Ok (failure "Model not loaded" 500)).
Proof.
  destruct (batch_segment_without_model (H := vision uniform) (H0 := bare)
              mixed) as [Hmissing _].
  apply Hmissing. reflexivity.
Defined.

Lemma total_count_decomposition_witness :
  exists d,
    result (count_contours (H := vision clump) engine small_mask 200) = Ok d /\
    d !! "total_count" = Some (VInt 5) /\
    d !! "additional_separated" = Some (VInt 2).
Proof.
  destruct (total_count_decomposition (H := vision clump) engine small_mask
              200)
    as (d & tot & par & art & ov & add & Hd & Ht & Hp & Ha & Ho & Hadd & _).
  - vm_compute. discriminate.
  - destruct (count_contours_nonempty (H := vision clump) engine small_mask
                200) as (add' & Hadd' & _ & Hcc);
      [vm_compute; discriminate|].
    vm_compute in Hadd'. injection Hadd' as <-.
    rewrite Hcc in Hd. injection Hd as <-.
    exists (full_result
              (@findContours (vision clump) (binarize small_mask 200))
              (np_median (map polygon_area
                 (@findContours (vision clump) (binarize small_mask 200))))
              (Tally 0 0 1 [square 5]) 2).
    split; [by rewrite Hcc|]. split; apply full_result_lookup.
Defined.

Lemma preprocess_image_unit_witness :
  exists arr,
    preprocess_image (H := vision uniform) engine red_strip = [arr] /\
    Forall (Forall unit_pixel) arr.
Proof.
  destruct (preprocess_image_unit (H := vision uniform) engine red_strip)
    as (arr & Harr & _ & Hunit).
  - repeat constructor; simpl; lia.
  - by exists arr.
Defined.

End Checks.
